(** * Task progress registry ([backend/utils/progress_tracker.py])

    A shallow embedding of the [ProgressTracker] class: an in-memory
    registry of task records keyed by task id, guarded by one
    [threading.Lock].

    - Python [int] is [Z]; Python [float] is IEEE 754 binary64, taken from
      the Standard Library's executable specification [SpecFloat]
      (round to nearest even, signed zeros, infinities, NaN). Arguments
      have the types of the annotations of the source: [progress] is a
      float, [total_items], [profile_id] and [max_age_minutes] are ints.
    - [str] is [string], read as ASCII text.
    - [datetime] values are microsecond counts ([Z]); differences are
      [timedelta] microsecond counts.
    - the [tasks] dict is a [gmap string Task], a task record has one
      field per key of the stored dict.
    - every method is a computation in a small monad over the tracker and
      the wall clock, whose outcomes are: returning a value, raising an
      exception, or blocking for ever on the lock. *)

From Stdlib Require Import ZArith String Ascii Bool Lia.
From Stdlib Require Import Floats.SpecFloat.
From stdpp Require Import gmap strings.

Local Open Scope Z_scope.

(** ** Exceptions and results of pure Python operations *)

Inductive exn : Type :=
| ZeroDivisionError
| OverflowError
| ValueError
| KeyError.

Inductive result (A : Type) : Type :=
| Ok (a : A)
| Err (e : exn).

Arguments Ok {A} a.
Arguments Err {A} e.

(** ** Python numbers *)

Module PyNum.

(** binary64: 53 bits of precision, exponent of the infinities 1024. *)
Definition prec : Z := 53.
Definition emax : Z := 1024.

Definition float : Type := spec_float.

(** [float(z)]'s value when it is in range: nearest float, ties to even. *)
Definition float_of_Z (z : Z) : float := binary_normalize prec emax z 0 false.

(** The literals of the source. *)
Definition f0 : float := S754_zero false.                         (* 0.0 *)
Definition f100 : float := Eval vm_compute in float_of_Z 100.     (* 100.0 *)
Definition f60 : float := Eval vm_compute in float_of_Z 60.       (* 60.0 *)

Definition is_zero (x : float) : bool :=
  match x with S754_zero _ => true | _ => false end.

(** [x < y] and [x > y] on floats: false as soon as one side is NaN. *)
Definition float_lt (x y : float) : bool := SFltb x y.
Definition float_gt (x y : float) : bool := SFltb y x.
Definition float_le (x y : float) : bool := SFleb x y.

(** The builtins [max(a, b)] and [min(a, b)]: the first argument is kept
    unless the second compares strictly greater (smaller). *)
Definition py_max (a b : float) : float := if float_gt b a then b else a.
Definition py_min (a b : float) : float := if float_lt b a then b else a.

(** [x * y] and [x - y] on floats never raise. *)
Definition float_mul (x y : float) : float := SFmul prec emax x y.
Definition float_sub (x y : float) : float := SFsub prec emax x y.

(** [x / y] on floats raises [ZeroDivisionError] on a zero divisor. *)
Definition float_truediv (x y : float) : result float :=
  if is_zero y then Err ZeroDivisionError else Ok (SFdiv prec emax x y).

(** Conversion of an [int] operand in mixed arithmetic: nearest float,
    [OverflowError] when the integer is too large for a float. *)
Definition float_of_int (z : Z) : result float :=
  match float_of_Z z with
  | S754_infinity _ => Err OverflowError
  | x => Ok x
  end.

Definition float_mul_int (x : float) (z : Z) : result float :=
  match float_of_int z with
  | Ok y => Ok (float_mul x y)
  | Err e => Err e
  end.

(** [int(x)]: truncation toward zero; NaN and the infinities raise. *)
Definition int_of_float (x : float) : result Z :=
  match x with
  | S754_nan => Err ValueError
  | S754_infinity _ => Err OverflowError
  | S754_zero _ => Ok 0
  | S754_finite s m e =>
      let v := if 0 <=? e then Z.pos m * 2 ^ e else Z.pos m / 2 ^ (- e) in
      Ok (if s then - v else v)
  end.

(** Comparison of a float with an [int]: Python compares the exact
    values, without rounding the integer. *)
Definition float_cmp_int (x : float) (z : Z) : option comparison :=
  match x with
  | S754_nan => None
  | S754_infinity s => Some (if s then Lt else Gt)
  | S754_zero _ => Some (0 ?= z)
  | S754_finite s m e =>
      let v := if s then Z.neg m else Z.pos m in
      Some (if 0 <=? e then v * 2 ^ e ?= z else v ?= z * 2 ^ (- e))
  end.

Definition float_gt_int (x : float) (z : Z) : bool :=
  match float_cmp_int x z with
  | Some Gt => true
  | _ => false
  end.

(** The correctly rounded quotient of two integers, [b] non-zero; an
    infinity stands for a quotient beyond the float range. *)
Definition round_quotient (a b : Z) : float :=
  let negate := xorb (a <? 0) (b <? 0) in
  match a with
  | 0 => S754_zero negate
  | _ =>
      let '(q, e, l) := SFdiv_core_binary prec emax (Z.abs a) 0 (Z.abs b) 0 in
      binary_round_aux prec emax negate q e l
  end.

(** [a / b] on ints (true division). *)
Definition int_truediv (a b : Z) : result float :=
  if b =? 0 then Err ZeroDivisionError
  else match round_quotient a b with
       | S754_infinity _ => Err OverflowError
       | x => Ok x
       end.

(** A value that is an [int] or a [float]: [max(0, remaining)] yields the
    int [0] or the float [remaining]. *)
Inductive number : Type :=
| PyInt (z : Z)
| PyFloat (x : float).

Definition py_max_int_float (a : Z) (b : float) : number :=
  if float_gt_int b a then PyFloat b else PyInt a.

End PyNum.

Import PyNum.

(** ** Strings *)

(** [str.lower()] on ASCII text. *)
Definition lower_ascii (c : ascii) : ascii :=
  let n := nat_of_ascii c in
  if (Nat.leb 65 n && Nat.leb n 90)%bool then ascii_of_nat (n + 32)%nat else c.

Fixpoint lower (s : string) : string :=
  match s with
  | EmptyString => EmptyString
  | String c s' => String (lower_ascii c) (lower s')
  end.

(** [needle in hay] on strings. *)
Fixpoint str_in (needle hay : string) : bool :=
  if String.prefix needle hay then true
  else match hay with
       | EmptyString => false
       | String _ hay' => str_in needle hay'
       end.

(** Truth value of an optional string: [None] and [''] are false. *)
Definition truthy_str (message : option string) : bool :=
  match message with
  | None => false
  | Some EmptyString => false
  | Some _ => true
  end.

(** ** Task records *)

Definition datetime : Type := Z.   (* microseconds *)
Definition timedelta : Type := Z.  (* microseconds *)

(** [timedelta.total_seconds()]: the microsecond count divided by [10**6]
    with int true division. A [timedelta] spans less than a billion days, so
    the quotient is always within the float range. *)
Definition total_seconds (d : timedelta) : float := round_quotient d 1000000.

(** The values taken by the ['status'] entry. *)
Inductive Status : Type := running | completed | failed.

Definition status_str (st : Status) : string :=
  match st with
  | running => "running"
  | completed => "completed"
  | failed => "failed"
  end.

#[global] Instance Status_eq_dec : EqDecision Status.
Proof. solve_decision. Defined.

(** The dict stored under each task id, one field per key. *)
Record Task : Type := mkTask {
  task_id : string;
  profile_id : Z;
  task_type : string;
  total_items : Z;
  completed_items : Z;
  progress : float;
  current_step : string;
  message : string;
  start_time : datetime;
  last_update : datetime;
  status : Status;
  estimated_time : option number
}.

(** [task[key] = v], one setter per key that the methods assign. *)
Definition set_progress (v : float) (t : Task) : Task :=
  mkTask (task_id t) (profile_id t) (task_type t) (total_items t) (completed_items t)
         v (current_step t) (message t) (start_time t) (last_update t) (status t)
         (estimated_time t).

Definition set_completed_items (v : Z) (t : Task) : Task :=
  mkTask (task_id t) (profile_id t) (task_type t) (total_items t) v
         (progress t) (current_step t) (message t) (start_time t) (last_update t)
         (status t) (estimated_time t).

Definition set_current_step (v : string) (t : Task) : Task :=
  mkTask (task_id t) (profile_id t) (task_type t) (total_items t) (completed_items t)
         (progress t) v (message t) (start_time t) (last_update t) (status t)
         (estimated_time t).

Definition set_message (v : string) (t : Task) : Task :=
  mkTask (task_id t) (profile_id t) (task_type t) (total_items t) (completed_items t)
         (progress t) (current_step t) v (start_time t) (last_update t) (status t)
         (estimated_time t).

Definition set_last_update (v : datetime) (t : Task) : Task :=
  mkTask (task_id t) (profile_id t) (task_type t) (total_items t) (completed_items t)
         (progress t) (current_step t) (message t) (start_time t) v (status t)
         (estimated_time t).

Definition set_status (v : Status) (t : Task) : Task :=
  mkTask (task_id t) (profile_id t) (task_type t) (total_items t) (completed_items t)
         (progress t) (current_step t) (message t) (start_time t) (last_update t) v
         (estimated_time t).

Definition set_estimated_time (v : option number) (t : Task) : Task :=
  mkTask (task_id t) (profile_id t) (task_type t) (total_items t) (completed_items t)
         (progress t) (current_step t) (message t) (start_time t) (last_update t)
         (status t) v.

(** ** The tracker, the clock and the monad of its methods *)

(** [__init__]: [self.tasks = {}] and [self.lock = threading.Lock()]. The
    lock is a plain, non-reentrant lock: [lock] tells whether it is held.
    [wall] is the sequence of readings that [datetime.now()] returns and
    [reads] counts the readings taken so far. *)
Record World : Type := mkWorld {
  tasks : gmap string Task;
  lock : bool;
  reads : nat;
  wall : nat -> datetime
}.

Definition init (clock : nat -> datetime) : World := mkWorld ∅ false 0%nat clock.

Definition with_tasks (m : gmap string Task) (w : World) : World :=
  mkWorld m (lock w) (reads w) (wall w).

Definition with_lock_state (b : bool) (w : World) : World :=
  mkWorld (tasks w) b (reads w) (wall w).

(** How a call ends. [Blocked] is a call that waits for the lock for ever:
    the methods are run by one caller, and a plain lock that this caller
    holds is released by nobody else. *)
Inductive outcome (A : Type) : Type :=
| Returned (a : A) (w : World)
| Raised (e : exn) (w : World)
| Blocked (w : World).

Arguments Returned {A} a w.
Arguments Raised {A} e w.
Arguments Blocked {A} w.

Definition M (A : Type) : Type := World -> outcome A.

Definition ret {A} (a : A) : M A := fun w => Returned a w.

Definition raise {A} (e : exn) : M A := fun w => Raised e w.

Definition bind {A B} (c : M A) (k : A -> M B) : M B :=
  fun w =>
    match c w with
    | Returned a w' => k a w'
    | Raised e w' => Raised e w'
    | Blocked w' => Blocked w'
    end.

Notation "'let!' x ':=' c 'in' k" := (bind c (fun x => k))
  (at level 10, x name, c at level 100, k at level 200).
Notation "c ;;; k" := (bind c (fun _ => k))
  (at level 100, right associativity).

Definition lift {A} (r : result A) : M A :=
  match r with
  | Ok a => ret a
  | Err e => raise e
  end.

(** [datetime.now()] *)
Definition datetime_now : M datetime :=
  fun w => Returned (wall w (reads w)) (mkWorld (tasks w) (lock w) (S (reads w)) (wall w)).

(** [self.lock.acquire()], blocking, and [self.lock.release()]. *)
Definition acquire : M unit :=
  fun w => if lock w then Blocked w else Returned tt (with_lock_state true w).

Definition release : M unit :=
  fun w => Returned tt (with_lock_state false w).

(** [with self.lock: body]: the lock is released when the body returns and
    when it raises. *)
Definition with_lock {A} (body : M A) : M A :=
  fun w =>
    match acquire w with
    | Returned _ w1 =>
        match body w1 with
        | Returned a w2 => (release ;;; ret a) w2
        | Raised e w2 => (release ;;; raise e) w2
        | Blocked w2 => Blocked w2
        end
    | Raised e w1 => Raised e w1
    | Blocked w1 => Blocked w1
    end.

(** A waiting [acquire] seen step by step: the caller polls the lock [fuel]
    times and takes it as soon as it is free. *)
Fixpoint acquire_within (fuel : nat) (w : World) : option World :=
  match fuel with
  | O => None
  | S fuel' => if lock w then acquire_within fuel' w else Some (with_lock_state true w)
  end.

(** [task_id in self.tasks] *)
Definition contains (k : string) : M bool :=
  fun w => Returned (bool_decide (is_Some (tasks w !! k))) w.

(** [self.tasks[k]] read through one of its keys. *)
Definition getitem {A} (k : string) (field : Task -> A) : M A :=
  fun w =>
    match tasks w !! k with
    | Some t => Returned (field t) w
    | None => Raised KeyError w
    end.

(** [task[key] = v] where [task] is [self.tasks[k]]: the record is shared
    with the dict, so the assignment is seen in [self.tasks]. *)
Definition setitem (k : string) (set : Task -> Task) : M unit :=
  fun w =>
    match tasks w !! k with
    | Some t => Returned tt (with_tasks (<[k := set t]> (tasks w)) w)
    | None => Raised KeyError w
    end.

(** ** The methods of [ProgressTracker] *)

Local Open Scope string_scope.

(** [_extract_step_from_message] *)
Definition _extract_step_from_message (message : string) : string :=
  if str_in "upload" (lower message) then "Uploading"
  else if str_in "process" (lower message) then "Processing"
  else if str_in "transcri" (lower message) then "Transcribing"
  else if str_in "analyz" (lower message) then "Analyzing"
  else if str_in "generat" (lower message) then "Generating"
  else "Processing".

(** [create_task] *)
Definition create_task (task_id : string) (total_items profile_id : Z)
    (task_type : string) : M string :=
  with_lock (
    let! start := datetime_now in
    let! last := datetime_now in
    fun w =>
      Returned tt
        (with_tasks
           (<[task_id := mkTask task_id profile_id task_type total_items 0 f0
                           "Initializing..." "Starting task..." start last running None]>
              (tasks w)) w)) ;;;
  ret task_id.

(** [update_progress]; the parameter [progress] is a [float], as annotated.
    Each assignment to [task] is seen in [self.tasks] at once, so a raise
    half-way leaves the earlier assignments in place. *)
Definition update_progress (task_id : string) (progress : float)
    (message : option string) : M unit :=
  with_lock (
    let! present := contains task_id in
    if present then
      setitem task_id (set_progress (py_min f100 (py_max f0 progress))) ;;;
      let! ratio := lift (float_truediv progress f100) in
      let! total := getitem task_id total_items in
      let! scaled := lift (float_mul_int ratio total) in
      let! items := lift (int_of_float scaled) in
      setitem task_id (set_completed_items items) ;;;
      (if truthy_str message then
         setitem task_id (set_message (default "" message)) ;;;
         setitem task_id (set_current_step (_extract_step_from_message (default "" message)))
       else ret tt) ;;;
      let! now := datetime_now in
      setitem task_id (set_last_update now) ;;;
      if float_gt_int progress 0 then
        let! now' := datetime_now in
        let! start := getitem task_id start_time in
        let elapsed := total_seconds (now' - start) in
        let! ratio' := lift (float_truediv progress f100) in
        let! estimated_total := lift (float_truediv elapsed ratio') in
        let remaining := float_sub estimated_total elapsed in
        setitem task_id (set_estimated_time (Some (py_max_int_float 0 remaining)))
      else ret tt
    else ret tt).

(** [increment_progress]: the call of [update_progress] is inside the
    [with self.lock] block. *)
Definition increment_progress (task_id : string) (message : option string) : M unit :=
  with_lock (
    let! present := contains task_id in
    if present then
      let! done := getitem task_id completed_items in
      let completed := done + 1 in
      let! total := getitem task_id total_items in
      let! quotient := lift (int_truediv completed total) in
      let progress := float_mul quotient f100 in
      update_progress task_id progress message
    else ret tt).

(** [complete_task]; [complete_task_message] is the default of [message]. *)
Definition complete_task_message : string := "Task completed successfully".

Definition complete_task (task_id : string) (message : string) : M unit :=
  with_lock (
    let! present := contains task_id in
    if present then
      setitem task_id (set_progress f100) ;;;
      let! total := getitem task_id total_items in
      setitem task_id (set_completed_items total) ;;;
      setitem task_id (set_message message) ;;;
      setitem task_id (set_status completed) ;;;
      let! now := datetime_now in
      setitem task_id (set_last_update now)
    else ret tt).

(** [fail_task] *)
Definition fail_task (task_id : string) (error_message : string) : M unit :=
  with_lock (
    let! present := contains task_id in
    if present then
      setitem task_id (set_message (String.append "Failed: " error_message)) ;;;
      setitem task_id (set_status failed) ;;;
      let! now := datetime_now in
      setitem task_id (set_last_update now)
    else ret tt).

(** [get_progress]: [self.tasks.get(task_id)]. The caller receives the
    stored dict itself; the value returned here is its content at the time
    of the call. *)
Definition get_progress (task_id : string) : M (option Task) :=
  with_lock (fun w => Returned (tasks w !! task_id) w).

(** [get_all_tasks]; [if profile_id:] is the truth value of an optional
    int: false for [None] and for [0]. *)
Definition truthy_int (z : option Z) : bool :=
  match z with
  | None => false
  | Some z => negb (z =? 0)%Z
  end.

Definition get_all_tasks (profile_id' : option Z) : M (gmap string Task) :=
  with_lock (
    fun w =>
      if truthy_int profile_id' then
        Returned (filter (fun kv => Some (profile_id kv.2) = profile_id') (tasks w)) w
      else
        Returned (tasks w) w).

(** [cleanup_old_tasks]: the ids to remove are collected first, then
    deleted one by one. The age is [total_seconds() / 60.0], a float
    division by a non-zero literal, which cannot raise. *)
Definition age_minutes (current_time : datetime) (t : Task) : float :=
  SFdiv prec emax (total_seconds (current_time - last_update t)) f60.

Definition swept (current_time : datetime) (max_age_minutes : Z) (t : Task) : bool :=
  match status t with
  | completed | failed => float_gt_int (age_minutes current_time t) max_age_minutes
  | running => false
  end.

Definition cleanup_old_tasks (max_age_minutes : Z) : M unit :=
  with_lock (
    let! current_time := datetime_now in
    fun w =>
      let tasks_to_remove :=
        (List.filter (fun kv => swept current_time max_age_minutes kv.2)
                     (map_to_list (tasks w))).*1 in
      Returned tt (with_tasks (foldl (fun m k => delete k m) (tasks w) tasks_to_remove) w)).

Local Close Scope string_scope.

(** ** Sequences of calls *)

(** The state in which a call ends, however it ends. *)
Definition world_after {A} (o : outcome A) : World :=
  match o with
  | Returned _ w | Raised _ w | Blocked w => w
  end.

(** The calls that change the registry. *)
Inductive call : Type :=
| CreateTask (task_id : string) (total_items profile_id : Z) (task_type : string)
| UpdateProgress (task_id : string) (progress : float) (message : option string)
| IncrementProgress (task_id : string) (message : option string)
| CompleteTask (task_id : string) (message : string)
| FailTask (task_id : string) (error_message : string)
| CleanupOldTasks (max_age_minutes : Z).

Definition run_call (c : call) : M unit :=
  match c with
  | CreateTask k n p ty => create_task k n p ty ;;; ret tt
  | UpdateProgress k p msg => update_progress k p msg
  | IncrementProgress k msg => increment_progress k msg
  | CompleteTask k msg => complete_task k msg
  | FailTask k err => fail_task k err
  | CleanupOldTasks age => cleanup_old_tasks age
  end.

(** Tasks are created with at least one item. *)
Definition positive_total (c : call) : Prop :=
  match c with
  | CreateTask _ n _ _ => 0 < n
  | _ => True
  end.

(** The states reached from the empty registry by any sequence of calls,
    whatever the clock reads. *)
Inductive reachable : World -> Prop :=
| reachable_init clock : reachable (init clock)
| reachable_call w c :
    reachable w -> positive_total c -> reachable (world_after (run_call c w)).

(** [0.0 <= progress <= 100.0] *)
Definition progress_in_range (t : Task) : Prop :=
  float_le f0 (progress t) = true /\ float_le (progress t) f100 = true.

(** [0 <= completed_items <= total_items] *)
Definition items_in_range (t : Task) : Prop :=
  0 <= completed_items t <= total_items t.

Definition all_tasks (Q : Task -> Prop) (w : World) : Prop :=
  forall k t, tasks w !! k = Some t -> Q t.

(** A computation keeps [P] when [P] holds in the state where it ends,
    whether it returns, raises or blocks. *)
Definition preserves {A} (P : World -> Prop) (c : M A) : Prop :=
  forall w, P w -> P (world_after (c w)).

(** Properties of the [tasks] dict alone. *)
Definition on_tasks (P : World -> Prop) : Prop :=
  forall w w', tasks w = tasks w' -> P w -> P w'.

(** ** Concrete registries used by the examples *)

Local Open Scope string_scope.

(** A clock that advances by one second at each reading. *)
Definition second_clock (n : nat) : datetime := 1000000 * Z.of_nat n.

(** A clock that stands still: every reading is the same instant. *)
Definition frozen_clock (now : datetime) (n : nat) : datetime := now.

(** A registry holding one running upload task of four items. *)
Definition upload_task : Task :=
  mkTask "t1" 7 "file_upload" 4 0 f0 "Initializing..." "Starting task..." 0 0 running None.

Definition upload_world : World :=
  mkWorld {["t1" := upload_task]} false 0%nat second_clock.

(** The scenario of the specification: create a task of four items,
    count three of them, complete the task. *)
Definition example_scenario : M unit :=
  create_task "t1" 4 7 "file_upload" ;;;
  increment_progress "t1" None ;;;
  increment_progress "t1" None ;;;
  increment_progress "t1" None ;;;
  complete_task "t1" complete_task_message.

(** The same work reported through [update_progress], with the progress
    values that [increment_progress] computes: [1 / 4 * 100.0],
    [2 / 4 * 100.0] and [3 / 4 * 100.0]. *)
Definition counted (n : Z) : float := float_mul (round_quotient n 4) f100.

Definition direct_updates : M unit :=
  create_task "t1" 4 7 "file_upload" ;;;
  update_progress "t1" (counted 1) None ;;;
  update_progress "t1" (counted 2) None ;;;
  update_progress "t1" (counted 3) None.

(** The record that [create_task "t1" 4 7 "file_upload"] stores when the
    clock reads [start] and then [last]. *)
Definition created_upload_task (start last : datetime) : Task :=
  mkTask "t1" 7 "file_upload" 4 0 f0 "Initializing..." "Starting task..."
         start last running None.

(** The states reached from the empty registry by creating a task of four
    items and reporting a progress of [150.0], or of [-50.0]. *)
Definition overshoot_world : World :=
  world_after (run_call (UpdateProgress "t1" (float_of_Z 150) None)
    (world_after (run_call (CreateTask "t1" 4 7 "file_upload") (init second_clock)))).

Definition undershoot_world : World :=
  world_after (run_call (UpdateProgress "t1" (float_of_Z (-50)) None)
    (world_after (run_call (CreateTask "t1" 4 7 "file_upload") (init second_clock)))).

(** A registry holding a task created with [total_items = 0]. *)
Definition empty_batch_task : Task :=
  mkTask "t0" 7 "file_upload" 0 0 f0 "Initializing..." "Starting task..." 0 0 running None.

Definition empty_batch_world : World :=
  mkWorld {["t0" := empty_batch_task]} false 0%nat second_clock.

(** A registry with one task of profile [0] and one of profile [7]. *)
Definition profile0_task : Task :=
  mkTask "a" 0 "file_upload" 1 0 f0 "Initializing..." "Starting task..." 0 0 running None.

Definition profile7_task : Task :=
  mkTask "b" 7 "transcription" 1 0 f0 "Initializing..." "Starting task..." 0 0 running None.

Definition two_profiles_world : World :=
  mkWorld (<["a" := profile0_task]> {["b" := profile7_task]}) false 0%nat second_clock.

(** A registry whose only task was completed at instant [5000000], read by
    a clock that still shows that instant. *)
Definition just_completed_task : Task :=
  mkTask "t1" 7 "file_upload" 4 4 f100 "Initializing..." "Task completed successfully"
         0 5000000 completed None.

Definition just_completed_world : World :=
  mkWorld {["t1" := just_completed_task]} false 0%nat (frozen_clock 5000000).

Local Close Scope string_scope.

Local Open Scope string_scope.

(** ** Further notions used by the properties *)

(** The task id that a call names; the sweep names none. *)
Definition target (c : call) : option string :=
  match c with
  | CreateTask k _ _ _ => Some k
  | UpdateProgress k _ _ => Some k
  | IncrementProgress k _ => Some k
  | CompleteTask k _ => Some k
  | FailTask k _ => Some k
  | CleanupOldTasks _ => None
  end.

(** The calls that work on an existing record. *)
Definition is_mutator (c : call) : bool :=
  match c with
  | UpdateProgress _ _ _ | IncrementProgress _ _ | CompleteTask _ _ | FailTask _ _ => true
  | CreateTask _ _ _ _ | CleanupOldTasks _ => false
  end.

(** The fields that no method assigns after creation, and the status,
    which [update_progress] does not assign either. *)
Definition same_identity (t t' : Task) : Prop :=
  task_id t' = task_id t /\ profile_id t' = profile_id t /\ task_type t' = task_type t /\
  total_items t' = total_items t /\ start_time t' = start_time t.

Definition all_entries (Q : string -> Task -> Prop) (w : World) : Prop :=
  forall k t, tasks w !! k = Some t -> Q k t.



(** ** The progress endpoints of the controllers

    [get_upload_progress] ([controllers/upload_controller.py]) and
    [get_transcription_progress] ([controllers/transcribe_controller.py])
    have the same body, each on the tracker of its module. The raise of
    [HTTPException] is the answer [HTTPException status detail]; the
    returned dict [{"success": True, "data": progress}] is [Success]. *)
Inductive response : Type :=
| HTTPException (status_code : Z) (detail : string)
| Success (data : Task).

Definition get_upload_progress (task_id : string) : M response :=
  let! progress := get_progress task_id in
  match progress with
  | None => ret (HTTPException 404 "Task not found")
  | Some t => ret (Success t)
  end.

Definition get_transcription_progress (task_id : string) : M response :=
  let! progress := get_progress task_id in
  match progress with
  | None => ret (HTTPException 404 "Task not found")
  | Some t => ret (Success t)
  end.

(** [2 ** -900], written as a float. *)
Definition f_tiny : float := S754_finite false 4503599627370496 (-952).

(** A mantissa at exponent [e <= 0], with what was cut off recorded in the
    two bits of the record, stands for a number that is at most the
    integer [B]. *)
Definition record_below (r : shr_record) (e B : Z) : Prop :=
  if (shr_r r || shr_s r)%bool then shr_m r + 1 <= B * 2 ^ (- e)
  else shr_m r <= B * 2 ^ (- e).

Definition located_below (m e : Z) (l : location) (B : Z) : Prop :=
  match l with
  | loc_Exact => m <= B * 2 ^ (- e)
  | loc_Inexact _ => m + 1 <= B * 2 ^ (- e)
  end.

(** ** Calls made as the data model asks

    A task is created with a total of items from [1] to [2 ** 53 - 1], and
    a progress is reported from [0] to [100]. *)
Definition proper_call (c : call) : Prop :=
  match c with
  | CreateTask _ n _ _ => 0 < n < 2 ^ 53
  | UpdateProgress _ p _ => float_le f0 p = true /\ float_gt_int p 100 = false
  | _ => True
  end.

Inductive properly_reachable : World -> Prop :=
| properly_init clock : properly_reachable (init clock)
| properly_call w c :
    properly_reachable w -> proper_call c ->
    properly_reachable (world_after (run_call c w)).

Definition bounded_items (t : Task) : Prop :=
  0 <= completed_items t <= total_items t /\ total_items t < 2 ^ 53.

(** A computation that ends by a return or a raise, in every state. *)
Definition never_blocks {A} (c : M A) : Prop :=
  forall w, match c w with Blocked _ => False | _ => True end.

Local Close Scope string_scope.

(** ** Proof automation

    [unfold_method] exposes the monadic plumbing of a method body;
    [run_method H] then runs the body on a registry in which the lookup of
    the task id is known by [H]. *)

Ltac run_method H :=
  repeat first
    [ rewrite H | rewrite lookup_insert_eq | rewrite insert_insert_eq | progress simpl ].

Ltac unfold_method :=
  unfold with_lock, acquire, release, bind, ret, raise, contains, setitem, getitem,
         datetime_now, with_tasks, with_lock_state; simpl.

(** * Properties *)

(** ** Facts on binary64 rounding *)

Lemma digits2_pos_bounds (p : positive) :
  2 ^ (Z.pos (digits2_pos p) - 1) <= Z.pos p < 2 ^ Z.pos (digits2_pos p).
Proof.
  induction p as [p IH|p IH|]; simpl digits2_pos.
  - rewrite Pos2Z.inj_succ.
    replace (Z.succ (Z.pos (digits2_pos p)) - 1) with (Z.succ (Z.pos (digits2_pos p) - 1)) by lia.
    rewrite !Z.pow_succ_r by lia. lia.
  - rewrite Pos2Z.inj_succ.
    replace (Z.succ (Z.pos (digits2_pos p)) - 1) with (Z.succ (Z.pos (digits2_pos p) - 1)) by lia.
    rewrite !Z.pow_succ_r by lia. lia.
  - simpl. lia.
Qed.

Lemma Zdigits2_bounds (m : Z) :
  0 < m -> 1 <= Zdigits2 m /\ 2 ^ (Zdigits2 m - 1) <= m < 2 ^ Zdigits2 m.
Proof.
  destruct m as [|p|p]; try lia. intros _. simpl Zdigits2.
  split; [lia | apply digits2_pos_bounds].
Qed.

Lemma shr_1_m (r : shr_record) :
  0 <= shr_m r -> shr_m (shr_1 r) = shr_m r / 2.
Proof.
  destruct r as [m b s]. cbn [shr_m]. intros Hm.
  destruct m as [|[p|p|]|p]; unfold shr_1; cbn [shr_m]; try lia.
  - reflexivity.
  - apply Z.div_unique with (r := 1); lia.
  - apply Z.div_unique with (r := 0); lia.
  - reflexivity.
Qed.

Lemma iter_pos_shr_1_m (n : positive) (r : shr_record) :
  0 <= shr_m r -> shr_m (SpecFloat.iter_pos shr_1 n r) = shr_m r / 2 ^ Z.pos n.
Proof.
  revert r. induction n as [n IH|n IH|]; intros r Hr; simpl SpecFloat.iter_pos.
  - assert (H1 : 0 <= shr_m (shr_1 r)) by (rewrite shr_1_m by lia; apply Z.div_pos; lia).
    assert (H2 : 0 <= shr_m (SpecFloat.iter_pos shr_1 n (shr_1 r)))
      by (rewrite IH by lia; apply Z.div_pos; [lia | apply Z.pow_pos_nonneg; lia]).
    rewrite IH by lia. rewrite IH by lia. rewrite shr_1_m by lia.
    rewrite !Z.div_div by (try apply Z.pow_pos_nonneg; lia).
    f_equal. replace (Z.pos n~1) with (1 + Z.pos n + Z.pos n) by lia.
    rewrite !Z.pow_add_r by lia. change (2 ^ 1) with 2. lia.
  - assert (H2 : 0 <= shr_m (SpecFloat.iter_pos shr_1 n r))
      by (rewrite IH by lia; apply Z.div_pos; [lia | apply Z.pow_pos_nonneg; lia]).
    rewrite IH by lia. rewrite IH by lia.
    rewrite !Z.div_div by (try apply Z.pow_pos_nonneg; lia).
    f_equal. replace (Z.pos n~0) with (Z.pos n + Z.pos n) by lia.
    rewrite !Z.pow_add_r by lia. lia.
  - rewrite shr_1_m by lia. reflexivity.
Qed.

Lemma shr_record_of_loc_m m l : shr_m (shr_record_of_loc m l) = m.
Proof. destruct l as [|[]]; reflexivity. Qed.

(** Rounding a positive mantissa whose exponent is at least [emin] never
    yields zero, and never lowers the exponent. *)
Lemma shr_fexp_pos m e l :
  0 < m -> -1074 <= e ->
  0 < shr_m (fst (shr_fexp prec emax m e l)) /\ e <= snd (shr_fexp prec emax m e l).
Proof.
  intros Hm He.
  destruct (Zdigits2_bounds m Hm) as [Hd [Hlo Hhi]].
  unfold shr_fexp, shr, fexp, SpecFloat.emin, prec, emax.
  set (d := Zdigits2 m) in *.
  destruct (Z.max (d + e - 53) (3 - 1024 - 53) - e) as [|n|n] eqn:Hn; simpl fst; simpl snd.
  - rewrite shr_record_of_loc_m. lia.
  - rewrite iter_pos_shr_1_m by (rewrite shr_record_of_loc_m; lia).
    rewrite shr_record_of_loc_m.
    split; [|lia].
    assert (Hnd : Z.pos n = d - 53) by lia.
    apply Z.lt_le_trans with (2 ^ 52); [apply Z.pow_pos_nonneg; lia|].
    apply Z.div_le_lower_bound; [apply Z.pow_pos_nonneg; lia|].
    rewrite <- Z.pow_add_r by lia.
    replace (Z.pos n + 52) with (d - 1) by lia. exact Hlo.
  - rewrite shr_record_of_loc_m. lia.
Qed.

Lemma round_nearest_even_pos m l : 0 < m -> 0 < round_nearest_even m l.
Proof.
  intros Hm. unfold round_nearest_even.
  destruct l as [|[]]; try lia. destruct (Z.even m); lia.
Qed.

Lemma binary_round_aux_pos sx mx ex lx :
  0 < mx -> -1074 <= ex ->
  (exists m e, binary_round_aux prec emax sx mx ex lx = S754_finite sx m e /\ ex <= e) \/
  binary_round_aux prec emax sx mx ex lx = S754_infinity sx.
Proof.
  intros Hm He. unfold binary_round_aux.
  pose proof (shr_fexp_pos mx ex lx Hm He) as [H1 H1'].
  destruct (shr_fexp prec emax mx ex lx) as [r1 e1]. simpl in H1, H1'.
  pose proof (shr_fexp_pos (round_nearest_even (shr_m r1) (loc_of_shr_record r1)) e1 loc_Exact
                (round_nearest_even_pos _ _ H1) ltac:(lia)) as [H2 H2'].
  destruct (shr_fexp prec emax _ e1 loc_Exact) as [r2 e2]. simpl in H2, H2'.
  destruct (shr_m r2) as [|m|m]; try lia.
  destruct (e2 <=? emax - prec); [left; exists m, e2; split; [reflexivity | lia] | now right].
Qed.

(** Whatever is rounded, the sign of the result is the one asked for. *)
Lemma binary_round_aux_sign sx mx ex lx :
  match binary_round_aux prec emax sx mx ex lx with
  | S754_zero s | S754_infinity s | S754_finite s _ _ => s = sx
  | S754_nan => True
  end.
Proof.
  unfold binary_round_aux.
  destruct (shr_fexp prec emax mx ex lx) as [r1 e1].
  destruct (shr_fexp prec emax _ e1 loc_Exact) as [r2 e2].
  destruct (shr_m r2); [reflexivity | | exact I].
  destruct (e2 <=? emax - prec); reflexivity.
Qed.

Lemma SFdiv_core_binary_pos m1 e1 m2 e2 :
  0 < m1 -> 0 < m2 ->
  -1074 <= e1 - e2 ->
  -1074 <= Zdigits2 m1 + e1 - (Zdigits2 m2 + e2) - 53 ->
  exists q l,
    SFdiv_core_binary prec emax m1 e1 m2 e2
      = (q, Z.min (Zdigits2 m1 + e1 - (Zdigits2 m2 + e2) - 53) (e1 - e2), l) /\
    0 < q.
Proof.
  intros H1 H2 He Hx.
  destruct (Zdigits2_bounds m1 H1) as [Hd1 [Hlo1 Hhi1]].
  destruct (Zdigits2_bounds m2 H2) as [Hd2 [Hlo2 Hhi2]].
  unfold SFdiv_core_binary, fexp, SpecFloat.emin, prec, emax.
  set (d1 := Zdigits2 m1) in *. set (d2 := Zdigits2 m2) in *.
  replace (Z.min (Z.max (d1 + e1 - (d2 + e2) - 53) (3 - 1024 - 53)) (e1 - e2))
    with (Z.min (d1 + e1 - (d2 + e2) - 53) (e1 - e2)) by lia.
  set (e' := Z.min (d1 + e1 - (d2 + e2) - 53) (e1 - e2)).
  set (s := e1 - e2 - e').
  assert (Hs : 0 <= s) by (unfold s, e'; lia).
  assert (Hds : d2 <= d1 - 1 + s) by (unfold s, e'; lia).
  set (m' := match s with Z.pos _ => Z.shiftl m1 s | 0 => m1 | Z.neg _ => 0 end).
  assert (Hm' : m' = m1 * 2 ^ s).
  { unfold m'. destruct s as [|p|p]; [simpl; lia | apply Z.shiftl_mul_pow2; lia | lia]. }
  assert (Hle : m2 <= m').
  { rewrite Hm'.
    apply Z.le_trans with (2 ^ d2); [lia|].
    apply Z.le_trans with (2 ^ (d1 - 1 + s)); [apply Z.pow_le_mono_r; lia|].
    rewrite Z.pow_add_r by lia.
    apply Z.mul_le_mono_nonneg_r; [apply Z.pow_nonneg; lia | exact Hlo1]. }
  pose proof (Z.div_str_pos m' m2 ltac:(lia)) as Hq.
  unfold Z.div in Hq.
  destruct (Z.div_eucl m' m2) as [q r].
  exists q, (new_location m2 r). split; [reflexivity | exact Hq].
Qed.

Lemma float_gt_int_0_finite_pos m e : float_gt_int (S754_finite false m e) 0 = true.
Proof.
  unfold float_gt_int, float_cmp_int.
  destruct (0 <=? e) eqn:He.
  - apply Z.leb_le in He.
    assert (H : 0 < Z.pos m * 2 ^ e) by (apply Z.mul_pos_pos; [lia | apply Z.pow_pos_nonneg; lia]).
    apply Z.lt_gt in H. unfold Z.gt in H. now rewrite H.
  - reflexivity.
Qed.

Lemma float_gt_int_0_negative x :
  match x with
  | S754_zero _ | S754_nan => True
  | S754_infinity s | S754_finite s _ _ => s = true
  end ->
  float_gt_int x 0 = false.
Proof.
  destruct x as [s|s| |s m e]; intros H; subst; try reflexivity.
  unfold float_gt_int, float_cmp_int.
  destruct (0 <=? e) eqn:He.
  - apply Z.leb_le in He.
    assert (H : Z.neg m * 2 ^ e < 0) by (apply Z.mul_neg_pos; [lia | apply Z.pow_pos_nonneg; lia]).
    unfold Z.lt in H. now rewrite H.
  - reflexivity.
Qed.

(** The age in minutes of a record is positive exactly when the record was
    last updated strictly before the current time. *)
Lemma age_positive (d : timedelta) :
  0 < d -> float_gt_int (SFdiv prec emax (total_seconds d) f60) 0 = true.
Proof.
  intros Hd. unfold total_seconds, round_quotient.
  destruct d as [|p|p]; try lia.
  change (xorb (Z.pos p <? 0) (1000000 <? 0)) with false.
  change (Z.abs (Z.pos p)) with (Z.pos p). change (Z.abs 1000000) with 1000000.
  destruct (Zdigits2_bounds (Z.pos p) Hd) as [Hdig _].
  destruct (SFdiv_core_binary_pos (Z.pos p) 0 1000000 0) as (q & l & Hcore & Hq);
    [lia | lia | lia | change (Zdigits2 1000000) with 20; lia |].
  rewrite Hcore. change (Zdigits2 1000000) with 20 in *.
  destruct (binary_round_aux_pos false q
              (Z.min (Zdigits2 (Z.pos p) + 0 - (20 + 0) - 53) (0 - 0)) l Hq ltac:(lia))
    as [(m & e & -> & He)| ->].
  - unfold SFdiv, f60.
    destruct (Zdigits2_bounds (Z.pos m) ltac:(lia)) as [Hdm _].
    destruct (SFdiv_core_binary_pos (Z.pos m) e (Z.pos 8444249301319680) (-47))
      as (q' & l' & Hcore' & Hq');
      [lia | lia | lia | change (Zdigits2 (Z.pos 8444249301319680)) with 53; lia |].
    rewrite Hcore'. change (Zdigits2 (Z.pos 8444249301319680)) with 53 in *.
    destruct (binary_round_aux_pos (xorb false false) q'
                (Z.min (Zdigits2 (Z.pos m) + e - (53 + -47) - 53) (e - -47)) l' Hq' ltac:(lia))
      as [(m' & e' & -> & _)| ->].
    + apply float_gt_int_0_finite_pos.
    + reflexivity.
  - reflexivity.
Qed.

Lemma age_not_positive (d : timedelta) :
  d <= 0 -> float_gt_int (SFdiv prec emax (total_seconds d) f60) 0 = false.
Proof.
  intros Hd. unfold total_seconds, round_quotient.
  destruct d as [|p|p]; try lia; [reflexivity|].
  change (xorb (Z.neg p <? 0) (1000000 <? 0)) with true.
  destruct (SFdiv_core_binary prec emax (Z.abs (Z.neg p)) 0 (Z.abs 1000000) 0) as [[q e] l].
  pose proof (binary_round_aux_sign true q e l) as Hs.
  destruct (binary_round_aux prec emax true q e l) as [s|s| |s m e']; subst.
  - reflexivity.
  - reflexivity.
  - reflexivity.
  - unfold SFdiv, f60.
    destruct (SFdiv_core_binary prec emax (Z.pos m) e' (Z.pos 8444249301319680) (-47))
      as [[q' e''] l'].
    pose proof (binary_round_aux_sign (xorb true false) q' e'' l') as Hs'.
    apply float_gt_int_0_negative.
    destruct (binary_round_aux prec emax (xorb true false) q' e'' l'); auto.
Qed.

Lemma Zdigits2_nonneg m : 0 <= Zdigits2 m.
Proof. destruct m; simpl; lia. Qed.

Lemma Zdigits2_le m k : 0 <= m < 2 ^ k -> 0 <= k -> Zdigits2 m <= k.
Proof.
  intros [Hm Hk] Hk0.
  destruct (Z.eq_dec m 0) as [->|Hne]; [simpl; lia|].
  destruct (Zdigits2_bounds m ltac:(lia)) as [Hd [Hlo _]].
  destruct (Z.le_gt_cases (Zdigits2 m) k) as [|Hgt]; [assumption|].
  assert (2 ^ k <= 2 ^ (Zdigits2 m - 1)) by (apply Z.pow_le_mono_r; lia). lia.
Qed.

(** After a right shift the number of digits plus the exponent has not
    grown above what it was, nor above the new exponent. *)
Lemma shr_fexp_digits m e l :
  0 <= m ->
  let r := fst (shr_fexp prec emax m e l) in
  let e' := snd (shr_fexp prec emax m e l) in
  0 <= shr_m r /\
  Zdigits2 (shr_m r) + e' <= Z.max (Zdigits2 m + e) e' /\
  (e' = e \/ e' = Z.max (Zdigits2 m + e - 53) (-1074)).
Proof.
  intros Hm.
  unfold shr_fexp, shr, fexp, SpecFloat.emin, prec, emax.
  set (d := Zdigits2 m) in *.
  destruct (Z.max (d + e - 53) (3 - 1024 - 53) - e) as [|n|n] eqn:Hn; simpl fst; simpl snd.
  - rewrite shr_record_of_loc_m. fold d. lia.
  - rewrite iter_pos_shr_1_m by (rewrite shr_record_of_loc_m; lia).
    rewrite shr_record_of_loc_m.
    assert (Hpow : 0 < 2 ^ Z.pos n) by (apply Z.pow_pos_nonneg; lia).
    split; [apply Z.div_pos; lia|].
    split; [|lia].
    destruct (Z.eq_dec m 0) as [->|Hne].
    { rewrite Z.div_0_l by lia. simpl Zdigits2. lia. }
    destruct (Zdigits2_bounds m ltac:(lia)) as [Hd [_ Hhi]]. fold d in Hd, Hhi.
    destruct (Z.le_gt_cases (Z.pos n) d) as [Hle|Hgt].
    + assert (Zdigits2 (m / 2 ^ Z.pos n) <= d - Z.pos n); [|lia].
      apply Zdigits2_le; [|lia].
      split; [apply Z.div_pos; lia|].
      apply Z.div_lt_upper_bound; [lia|].
      rewrite <- Z.pow_add_r by lia.
      replace (Z.pos n + (d - Z.pos n)) with d by lia. exact Hhi.
    + rewrite Z.div_small; [simpl Zdigits2; lia|].
      split; [lia|]. apply Z.lt_le_trans with (2 ^ d); [exact Hhi|].
      apply Z.pow_le_mono_r; lia.
  - rewrite shr_record_of_loc_m. fold d. lia.
Qed.

Lemma round_nearest_even_digits m l :
  0 <= m ->
  0 <= round_nearest_even m l /\ Zdigits2 (round_nearest_even m l) <= Zdigits2 m + 1.
Proof.
  intros Hm.
  assert (Hup : 0 <= m + 1 /\ Zdigits2 (m + 1) <= Zdigits2 m + 1).
  { split; [lia|].
    destruct (Z.eq_dec m 0) as [->|Hne]; [simpl; lia|].
    destruct (Zdigits2_bounds m ltac:(lia)) as [Hd [_ Hhi]].
    apply Zdigits2_le; [|lia]. split; [lia|].
    rewrite Z.pow_add_r by lia. change (2 ^ 1) with 2. lia. }
  unfold round_nearest_even.
  destruct l as [|[]].
  - split; lia.
  - destruct (Z.even m); [split; lia | exact Hup].
  - split; lia.
  - exact Hup.
Qed.

(** Rounding does not overflow when the value is below [2 ^ 1023] and the
    exponent is at most that of the largest floats. *)
Lemma binary_round_aux_finite sx mx ex lx :
  0 <= mx -> ex <= 971 -> Zdigits2 mx + ex <= 1023 ->
  forall s, binary_round_aux prec emax sx mx ex lx <> S754_infinity s.
Proof.
  intros Hm He Hd s. unfold binary_round_aux.
  pose proof (shr_fexp_digits mx ex lx Hm) as (H1 & H1d & H1e).
  destruct (shr_fexp prec emax mx ex lx) as [r1 e1]. simpl in H1, H1d, H1e.
  pose proof (round_nearest_even_digits (shr_m r1) (loc_of_shr_record r1) H1) as [H2 H2d].
  pose proof (shr_fexp_digits _ e1 loc_Exact H2) as (H3 & H3d & H3e).
  destruct (shr_fexp prec emax _ e1 loc_Exact) as [r2 e2]. simpl in H3, H3d, H3e.
  destruct (shr_m r2) as [|m|m]; try discriminate.
  destruct (Z.leb_spec e2 (emax - prec)) as [|Hgt]; [discriminate|].
  unfold emax, prec in Hgt. pose proof (Zdigits2_nonneg (shr_m r1)). lia.
Qed.

Lemma SFdiv_core_binary_int m1 m2 :
  0 < m1 -> 0 < m2 ->
  exists q e l,
    SFdiv_core_binary prec emax m1 0 m2 0 = (q, e, l) /\
    0 <= q /\ e <= 0 /\ Zdigits2 q + e <= Zdigits2 m1.
Proof.
  intros H1 H2.
  destruct (Zdigits2_bounds m1 H1) as [Hd1 [Hlo1 Hhi1]].
  unfold SFdiv_core_binary, fexp, SpecFloat.emin, prec, emax.
  set (d1 := Zdigits2 m1) in *. set (d2 := Zdigits2 m2) in *.
  set (e' := Z.min (Z.max (d1 + 0 - (d2 + 0) - 53) (3 - 1024 - 53)) (0 - 0)).
  set (s := 0 - 0 - e').
  assert (Hs : 0 <= s) by (unfold s, e'; lia).
  set (m' := match s with Z.pos _ => Z.shiftl m1 s | 0 => m1 | Z.neg _ => 0 end).
  assert (Hm' : m' = m1 * 2 ^ s).
  { unfold m'. destruct s as [|p|p]; [simpl; lia | apply Z.shiftl_mul_pow2; lia | lia]. }
  assert (Hpow : 0 < 2 ^ s) by (apply Z.pow_pos_nonneg; lia).
  assert (Hq0 : 0 <= m' / m2) by (apply Z.div_pos; nia).
  assert (Hq1 : m' / m2 < 2 ^ (d1 + s)).
  { apply Z.le_lt_trans with m'.
    - apply Z.div_le_upper_bound; nia.
    - rewrite Hm', Z.pow_add_r by lia. nia. }
  unfold Z.div in Hq0, Hq1.
  destruct (Z.div_eucl m' m2) as [q r].
  exists q, e', (new_location m2 r). split; [reflexivity|].
  split; [exact Hq0|]. split; [unfold e'; lia|].
  assert (Zdigits2 q <= d1 + s) by (apply Zdigits2_le; lia).
  unfold s in *. lia.
Qed.

(** A quotient of integers whose numerator is below [2 ^ 1023] in absolute
    value is within the float range. *)
Lemma round_quotient_finite a b :
  b <> 0 -> Z.abs a < 2 ^ 1023 -> forall s, round_quotient a b <> S754_infinity s.
Proof.
  intros Hb Ha s. unfold round_quotient.
  destruct (Z.eq_dec a 0) as [->|Hne]; [discriminate|].
  assert (Hcore := SFdiv_core_binary_int (Z.abs a) (Z.abs b) ltac:(lia) ltac:(lia)).
  destruct Hcore as (q & e & l & Hcore & Hq & He & Hd).
  rewrite Hcore.
  assert (Zdigits2 (Z.abs a) <= 1023) by (apply Zdigits2_le; lia).
  destruct a; [congruence | |]; apply binary_round_aux_finite; lia.
Qed.

Lemma int_truediv_in_range a b :
  b <> 0 -> Z.abs a < 2 ^ 1023 -> int_truediv a b = Ok (round_quotient a b).
Proof.
  intros Hb Ha. unfold int_truediv.
  destruct (Z.eqb_spec b 0) as [?|_]; [contradiction|].
  pose proof (round_quotient_finite a b Hb Ha) as Hfin.
  destruct (round_quotient a b) as [|s| |]; try reflexivity.
  now destruct (Hfin s).
Qed.

(** The builtin clamp [min(100.0, max(0.0, p))] lands in [0.0, 100.0] for
    every float [p], NaN and the infinities included. *)
Lemma SFltb_SFleb x y : SFltb x y = true -> SFleb x y = true.
Proof. unfold SFltb, SFleb. destruct (SFcompare x y) as [[]|]; congruence. Qed.

Lemma clamp_in_range (p : float) :
  float_le f0 (py_min f100 (py_max f0 p)) = true /\
  float_le (py_min f100 (py_max f0 p)) f100 = true.
Proof.
  unfold py_min, py_max, float_gt, float_lt, float_le.
  destruct (SFltb f0 p) eqn:H0.
  - destruct (SFltb p f100) eqn:H100.
    + split; now apply SFltb_SFleb.
    + split; reflexivity.
  - split; reflexivity.
Qed.

(** ** The lock *)

Lemma acquire_free w : lock w = false -> acquire w = Returned tt (with_lock_state true w).
Proof. intros H. unfold acquire. now rewrite H. Qed.

Lemma acquire_held w : lock w = true -> acquire w = Blocked w.
Proof. intros H. unfold acquire. now rewrite H. Qed.

(** A held lock is never obtained, however long the caller polls: this is
    what the outcome [Blocked] stands for. *)
Lemma acquire_within_held w :
  lock w = true -> forall fuel, acquire_within fuel w = None.
Proof. intros H fuel. induction fuel as [|fuel IH]; simpl; [|rewrite H]; auto. Qed.

Lemma acquire_within_free w fuel :
  lock w = false -> acquire_within (S fuel) w = Some (with_lock_state true w).
Proof. intros H. simpl. now rewrite H. Qed.

Lemma acquire_blocked_iff w :
  acquire w = Blocked w <-> forall fuel, acquire_within fuel w = None.
Proof.
  split.
  - intros H. apply acquire_within_held. unfold acquire in H.
    destruct (lock w); [reflexivity | discriminate].
  - intros H. specialize (H 1%nat). simpl in H. unfold acquire.
    destruct (lock w); [reflexivity | discriminate].
Qed.

Lemma with_lock_held {A} (body : M A) w : lock w = true -> with_lock body w = Blocked w.
Proof. intros H. unfold with_lock. now rewrite (acquire_held w H). Qed.

(** A [with self.lock] block entered with the lock free leaves it free
    when it returns and when it raises. *)
Lemma with_lock_releases {A} (body : M A) w :
  lock w = false ->
  match with_lock body w with
  | Returned _ w' | Raised _ w' => lock w' = false
  | Blocked _ => True
  end.
Proof.
  intros H. unfold with_lock, acquire. rewrite H.
  now destruct (body (with_lock_state true w)).
Qed.

Lemma unlock_lock w : lock w = false -> with_lock_state false (with_lock_state true w) = w.
Proof. destruct w; simpl; intros ->; reflexivity. Qed.

(** Every method starts by taking the lock, so a call made while the lock
    is held blocks at once and changes nothing. *)
Lemma update_progress_held k p msg w :
  lock w = true -> update_progress k p msg w = Blocked w.
Proof. apply with_lock_held. Qed.

(** ** Exact results of the methods on a free lock *)

Lemma create_task_result w k total pid ty :
  lock w = false ->
  create_task k total pid ty w =
    Returned k
      (mkWorld
         (<[k := mkTask k pid ty total 0 f0 "Initializing..." "Starting task..."
                   (wall w (reads w)) (wall w (S (reads w))) running None]> (tasks w))
         false (S (S (reads w))) (wall w)).
Proof.
  destruct w as [m l r c]; simpl; intros ->.
  unfold create_task. unfold_method. reflexivity.
Qed.

Lemma get_progress_result w k :
  lock w = false -> get_progress k w = Returned (tasks w !! k) w.
Proof.
  destruct w as [m l r c]; simpl; intros ->.
  unfold get_progress. unfold_method. reflexivity.
Qed.

Lemma complete_task_known w k msg t :
  lock w = false -> tasks w !! k = Some t ->
  complete_task k msg w =
    Returned tt
      (mkWorld
         (<[k := set_last_update (wall w (reads w))
                   (set_status completed
                      (set_message msg
                         (set_completed_items (total_items t) (set_progress f100 t))))]>
            (tasks w))
         false (S (reads w)) (wall w)).
Proof.
  destruct w as [m l r c]; simpl; intros -> H.
  unfold complete_task. unfold_method. run_method H. reflexivity.
Qed.

Lemma complete_task_stores w k msg t :
  lock w = false -> tasks w !! k = Some t ->
  exists w',
    complete_task k msg w = Returned tt w' /\
    tasks w' !! k =
      Some (set_last_update (wall w (reads w))
              (set_status completed
                 (set_message msg
                    (set_completed_items (total_items t) (set_progress f100 t))))).
Proof.
  intros Hfree Hk. eexists.
  split; [apply (complete_task_known _ _ _ _ Hfree Hk)|].
  simpl. apply lookup_insert_eq.
Qed.

Lemma fail_task_known w k err t :
  lock w = false -> tasks w !! k = Some t ->
  fail_task k err w =
    Returned tt
      (mkWorld
         (<[k := set_last_update (wall w (reads w))
                   (set_status failed (set_message (String.append "Failed: " err) t))]>
            (tasks w))
         false (S (reads w)) (wall w)).
Proof.
  destruct w as [m l r c]; simpl; intros -> H.
  unfold fail_task. unfold_method. run_method H. reflexivity.
Qed.

(** On an id that is not registered the four mutators do nothing. *)
Lemma update_progress_unknown w k p msg :
  lock w = false -> tasks w !! k = None -> update_progress k p msg w = Returned tt w.
Proof.
  destruct w as [m l r c]; simpl; intros -> H.
  unfold update_progress. unfold_method. run_method H. reflexivity.
Qed.

Lemma increment_progress_unknown w k msg :
  lock w = false -> tasks w !! k = None -> increment_progress k msg w = Returned tt w.
Proof.
  destruct w as [m l r c]; simpl; intros -> H.
  unfold increment_progress. unfold_method. run_method H. reflexivity.
Qed.

Lemma complete_task_unknown w k msg :
  lock w = false -> tasks w !! k = None -> complete_task k msg w = Returned tt w.
Proof.
  destruct w as [m l r c]; simpl; intros -> H.
  unfold complete_task. unfold_method. run_method H. reflexivity.
Qed.

Lemma fail_task_unknown w k err :
  lock w = false -> tasks w !! k = None -> fail_task k err w = Returned tt w.
Proof.
  destruct w as [m l r c]; simpl; intros -> H.
  unfold fail_task. unfold_method. run_method H. reflexivity.
Qed.

(** ** Creation, completion, failure and unknown ids *)

Local Open Scope string_scope.

(** C10. For every task id, profile id, task type and [total_items > 0],
    right after [create_task] the registry holds a record for the id with
    status running, progress [0.0], no completed item and current step
    ["Initializing..."], and [get_progress] returns that record. *)
Theorem create_task_registers_running_record w k total pid ty :
  lock w = false -> 0 < total ->
  exists w' t,
    create_task k total pid ty w = Returned k w' /\
    tasks w' !! k = Some t /\
    status t = running /\ progress t = f0 /\ completed_items t = 0 /\
    current_step t = "Initializing..." /\
    task_id t = k /\ total_items t = total /\ profile_id t = pid /\ task_type t = ty /\
    get_progress k w' = Returned (Some t) w'.
Proof.
  intros Hfree _.
  eexists; eexists.
  split; [apply create_task_result, Hfree|].
  split; [simpl; apply lookup_insert_eq|].
  repeat (split; [reflexivity|]).
  rewrite get_progress_result by reflexivity.
  simpl. now rewrite lookup_insert_eq.
Qed.

Lemma create_task_registers_running_record_witness :
  exists w' t,
    create_task "t1" 4 7 "file_upload" (init second_clock) = Returned "t1" w' /\
    tasks w' !! "t1" = Some t /\
    status t = running /\ progress t = f0 /\ completed_items t = 0 /\
    current_step t = "Initializing..." /\
    task_id t = "t1" /\ total_items t = 4 /\ profile_id t = 7 /\
    task_type t = "file_upload" /\
    get_progress "t1" w' = Returned (Some t) w'.
Proof.
  apply (create_task_registers_running_record (init second_clock) "t1" 4 7 "file_upload");
    [reflexivity | lia].
Defined.

(** C5. For every registered task id, whatever the progress stored before,
    after [complete_task] the record has status completed, progress
    [100.0] and as many completed items as total items. *)
Theorem complete_task_forces_completion w k msg t :
  lock w = false -> tasks w !! k = Some t ->
  exists w' t',
    complete_task k msg w = Returned tt w' /\
    tasks w' !! k = Some t' /\
    status t' = completed /\ progress t' = f100 /\
    completed_items t' = total_items t' /\ total_items t' = total_items t /\
    message t' = msg.
Proof.
  intros Hfree Hk.
  eexists; eexists.
  split; [apply (complete_task_known _ _ _ _ Hfree Hk)|].
  split; [simpl; apply lookup_insert_eq|].
  repeat split.
Qed.

Lemma complete_task_forces_completion_witness :
  exists w' t',
    complete_task "t1" complete_task_message upload_world = Returned tt w' /\
    tasks w' !! "t1" = Some t' /\
    status t' = completed /\ progress t' = f100 /\
    completed_items t' = total_items t' /\ total_items t' = total_items upload_task /\
    message t' = complete_task_message.
Proof.
  apply (complete_task_forces_completion upload_world "t1" complete_task_message upload_task);
    reflexivity.
Defined.

(** C6. For every registered task id, after [fail_task] the record has
    status failed and the message ["Failed: "] followed by the error text,
    and its progress, completed items, total items, start time, profile id
    and task type are those it had before the call. *)
Theorem fail_task_marks_failed_and_keeps_progress w k err t :
  lock w = false -> tasks w !! k = Some t ->
  exists w' t',
    fail_task k err w = Returned tt w' /\
    tasks w' !! k = Some t' /\
    status t' = failed /\ message t' = String.append "Failed: " err /\
    progress t' = progress t /\ completed_items t' = completed_items t /\
    total_items t' = total_items t /\ start_time t' = start_time t /\
    profile_id t' = profile_id t /\ task_type t' = task_type t.
Proof.
  intros Hfree Hk.
  eexists; eexists.
  split; [apply (fail_task_known _ _ _ _ Hfree Hk)|].
  split; [simpl; apply lookup_insert_eq|].
  repeat split.
Qed.

Lemma fail_task_marks_failed_and_keeps_progress_witness :
  exists w' t',
    fail_task "t1" "disk full" upload_world = Returned tt w' /\
    tasks w' !! "t1" = Some t' /\
    status t' = failed /\ message t' = "Failed: disk full" /\
    progress t' = progress upload_task /\
    completed_items t' = completed_items upload_task /\
    total_items t' = total_items upload_task /\
    start_time t' = start_time upload_task /\
    profile_id t' = profile_id upload_task /\ task_type t' = task_type upload_task.
Proof.
  apply (fail_task_marks_failed_and_keeps_progress upload_world "t1" "disk full" upload_task);
    reflexivity.
Defined.

(** C7. For every task id that is not registered, [update_progress],
    [increment_progress], [complete_task] and [fail_task] return without
    raising and leave the whole state as it was, and [get_progress]
    returns the absent value without raising. *)
Theorem unknown_task_id_is_ignored w k p msg text :
  lock w = false -> tasks w !! k = None ->
  update_progress k p msg w = Returned tt w /\
  increment_progress k msg w = Returned tt w /\
  complete_task k text w = Returned tt w /\
  fail_task k text w = Returned tt w /\
  get_progress k w = Returned None w.
Proof.
  intros Hfree Hk.
  split; [now apply update_progress_unknown|].
  split; [now apply increment_progress_unknown|].
  split; [now apply complete_task_unknown|].
  split; [now apply fail_task_unknown|].
  rewrite get_progress_result by assumption. now rewrite Hk.
Qed.

Lemma unknown_task_id_is_ignored_witness :
  update_progress "unknown" (float_of_Z 50) (Some "Uploading") upload_world
    = Returned tt upload_world /\
  increment_progress "unknown" (Some "Uploading") upload_world = Returned tt upload_world /\
  complete_task "unknown" "done" upload_world = Returned tt upload_world /\
  fail_task "unknown" "done" upload_world = Returned tt upload_world /\
  get_progress "unknown" upload_world = Returned None upload_world.
Proof.
  apply (unknown_task_id_is_ignored upload_world "unknown" (float_of_Z 50)
           (Some "Uploading") "done"); reflexivity.
Defined.

Local Close Scope string_scope.

(** ** Counting items: the nested acquisition of the lock *)

Lemma increment_progress_computed w k msg t q :
  lock w = false -> tasks w !! k = Some t ->
  int_truediv (completed_items t + 1) (total_items t) = Ok q ->
  increment_progress k msg w = Blocked (with_lock_state true w).
Proof.
  destruct w as [m l r c]; simpl; intros -> H Hq.
  unfold increment_progress. unfold_method. run_method H.
  rewrite Hq. reflexivity.
Qed.

Lemma increment_progress_raises w k msg t e :
  lock w = false -> tasks w !! k = Some t ->
  int_truediv (completed_items t + 1) (total_items t) = Err e ->
  increment_progress k msg w = Raised e w.
Proof.
  destruct w as [m l r c]; simpl; intros -> H Hq.
  unfold increment_progress. unfold_method. run_method H.
  rewrite Hq. reflexivity.
Qed.

(** With at least one item the division raises nothing but, for integers
    beyond the float range, [OverflowError]. *)
Lemma int_truediv_nonzero a b :
  b <> 0 -> (exists q, int_truediv a b = Ok q) \/ int_truediv a b = Err OverflowError.
Proof.
  intros Hb. unfold int_truediv.
  destruct (Z.eqb_spec b 0) as [->|_]; [contradiction|].
  destruct (round_quotient a b); eauto.
Qed.

Lemma int_truediv_zero a : int_truediv a 0 = Err ZeroDivisionError.
Proof. reflexivity. Qed.

Local Open Scope string_scope.

(** C3, as stated, fails on a task created with [total_items = 0]: the
    division raises [ZeroDivisionError] before [update_progress] is called,
    the lock is released and the call ends instead of blocking. *)
Lemma increment_progress_zero_items_raises :
  lock empty_batch_world = false /\
  tasks empty_batch_world !! "t0" = Some empty_batch_task /\
  increment_progress "t0" None empty_batch_world
    = Raised ZeroDivisionError empty_batch_world /\
  increment_progress "t0" None empty_batch_world
    <> Blocked (with_lock_state true empty_batch_world).
Proof.
  split; [reflexivity|]. split; [reflexivity|].
  assert (H : increment_progress "t0" None empty_batch_world
              = Raised ZeroDivisionError empty_batch_world).
  { apply (increment_progress_raises _ _ _ empty_batch_task); reflexivity. }
  split; [exact H|]. rewrite H. discriminate.
Qed.

(** C3, amended. For every registered task id whose [total_items] is not
    zero and whose [completed_items + 1] is below [2 ^ 1023] in absolute
    value, so that the quotient [(completed_items + 1) / total_items] is
    within the float range, [increment_progress] calls [update_progress]
    while it holds the lock of the registry; [update_progress] waits for
    that same lock, which is never obtained; so [increment_progress] never
    returns, and the stored record is unchanged. *)
Theorem increment_progress_self_deadlock w k msg t :
  lock w = false -> tasks w !! k = Some t ->
  total_items t <> 0 -> Z.abs (completed_items t + 1) < 2 ^ 1023 ->
  let held := with_lock_state true w in
  let computed :=
    float_mul (round_quotient (completed_items t + 1) (total_items t)) f100 in
  lock held = true /\
  update_progress k computed msg held = Blocked held /\
  (forall fuel, acquire_within fuel held = None) /\
  increment_progress k msg w = Blocked held /\
  tasks held !! k = Some t.
Proof.
  intros Hfree Hk Htotal Hrange held computed.
  split; [reflexivity|].
  split; [now apply update_progress_held|].
  split; [now apply acquire_within_held|].
  split; [|exact Hk].
  apply (increment_progress_computed w k msg t
           (round_quotient (completed_items t + 1) (total_items t)) Hfree Hk).
  now apply int_truediv_in_range.
Qed.

Lemma increment_progress_self_deadlock_witness :
  let held := with_lock_state true upload_world in
  let computed := float_mul (round_quotient (completed_items upload_task + 1)
                                            (total_items upload_task)) f100 in
  lock held = true /\
  update_progress "t1" computed None held = Blocked held /\
  (forall fuel, acquire_within fuel held = None) /\
  increment_progress "t1" None upload_world = Blocked held /\
  tasks held !! "t1" = Some upload_task.
Proof.
  apply (increment_progress_self_deadlock upload_world "t1" None upload_task);
    [reflexivity | reflexivity | simpl; lia | vm_compute; reflexivity].
Defined.

Local Close Scope string_scope.

(** ** The scenario of the specification *)

Local Open Scope string_scope.

(** C2. On the code the scenario stops at its first [increment_progress]:
    the query after [create_task] sees progress [0.0], no completed item
    and status running, but the increment then waits for ever for the lock
    it holds itself, so the record never reaches progress [75.0] nor status
    completed. This holds whatever the clock reads. *)
Theorem example_scenario_blocks_at_first_increment (clock : nat -> datetime) :
  let created := mkWorld {["t1" := created_upload_task (clock 0%nat) (clock 1%nat)]}
                         false 2%nat clock in
  create_task "t1" 4 7 "file_upload" (init clock) = Returned "t1" created /\
  get_progress "t1" created
    = Returned (Some (created_upload_task (clock 0%nat) (clock 1%nat))) created /\
  increment_progress "t1" None created = Blocked (with_lock_state true created) /\
  example_scenario (init clock) = Blocked (with_lock_state true created) /\
  tasks (with_lock_state true created) !! "t1"
    = Some (created_upload_task (clock 0%nat) (clock 1%nat)).
Proof.
  intros created.
  assert (Hcreate : create_task "t1" 4 7 "file_upload" (init clock) = Returned "t1" created).
  { rewrite create_task_result by reflexivity. simpl. now rewrite insert_empty. }
  assert (Hinc : increment_progress "t1" None created = Blocked (with_lock_state true created)).
  { apply (increment_progress_computed created "t1" None
             (created_upload_task (clock 0%nat) (clock 1%nat)) (round_quotient 1 4));
      reflexivity. }
  split; [exact Hcreate|].
  split; [now rewrite get_progress_result by reflexivity|].
  split; [exact Hinc|].
  split; [|reflexivity].
  unfold example_scenario, bind. now rewrite Hcreate, Hinc.
Qed.

(** The values of the scenario are those that [update_progress] stores
    when it is called directly: after the three updates the progress is
    [75.0] with 3 completed items, and [complete_task] then stores [100.0]
    and status completed. *)
Lemma direct_updates_reach_three_quarters :
  exists w t,
    direct_updates (init second_clock) = Returned tt w /\
    tasks w !! "t1" = Some t /\
    progress t = float_of_Z 75 /\ completed_items t = 3 /\ status t = running /\
    exists w' t',
      complete_task "t1" complete_task_message w = Returned tt w' /\
      tasks w' !! "t1" = Some t' /\
      progress t' = f100 /\ completed_items t' = 4 /\ status t' = completed.
Proof.
  destruct (direct_updates (init second_clock)) as [[] w|e w|w] eqn:Hrun;
    try (vm_compute in Hrun; discriminate).
  assert (Hw : tasks w !! "t1" =
               tasks (world_after (direct_updates (init second_clock))) !! "t1")
    by now rewrite Hrun.
  assert (Hlock : lock w = lock (world_after (direct_updates (init second_clock))))
    by now rewrite Hrun.
  vm_compute in Hw, Hlock.
  eexists; eexists. split; [reflexivity|]. split; [exact Hw|].
  repeat (split; [reflexivity|]).
  destruct (complete_task_stores w "t1" complete_task_message _ Hlock Hw)
    as (w' & Hc & Hl).
  eexists; eexists. split; [exact Hc|]. split; [exact Hl|]. repeat split.
Qed.

(** ** Progress updates *)

(** What [update_progress] does on a registered id, for every float: in
    whichever way the call ends, the stored progress is the clamp of the
    argument; when the call returns, the stored count is
    [int(progress / 100.0 * total_items)], taken from the argument as it
    was passed. *)
Lemma update_progress_known w k p msg t :
  lock w = false -> tasks w !! k = Some t ->
  exists t',
    tasks (world_after (update_progress k p msg w)) !! k = Some t' /\
    progress t' = py_min f100 (py_max f0 p) /\
    total_items t' = total_items t /\
    forall w', update_progress k p msg w = Returned tt w' ->
      exists scaled,
        float_mul_int (SFdiv prec emax p f100) (total_items t) = Ok scaled /\
        int_of_float scaled = Ok (completed_items t').
Proof.
  destruct w as [m l r c]; simpl; intros -> H.
  unfold update_progress. unfold_method. run_method H.
  destruct (float_mul_int (SFdiv prec emax p f100) (total_items t)) as [scaled|e] eqn:Hs; simpl.
  2:{ rewrite lookup_insert_eq. eexists. repeat split. intros w' [=]. }
  destruct (int_of_float scaled) as [items|e] eqn:Hi; simpl.
  2:{ rewrite lookup_insert_eq. eexists. repeat split. intros w' [=]. }
  destruct (truthy_str msg); run_method H.
  - destruct (float_gt_int p 0); run_method H.
    + destruct (float_truediv _ (SFdiv prec emax p f100)) as [est|e]; run_method H.
      * eexists. repeat (split; [reflexivity|]). intros w' _. eauto.
      * eexists. repeat (split; [reflexivity|]). intros w' [=].
    + eexists. repeat (split; [reflexivity|]). intros w' _. eauto.
  - destruct (float_gt_int p 0); run_method H.
    + destruct (float_truediv _ (SFdiv prec emax p f100)) as [est|e]; run_method H.
      * eexists. repeat (split; [reflexivity|]). intros w' _. eauto.
      * eexists. repeat (split; [reflexivity|]). intros w' [=].
    + eexists. repeat (split; [reflexivity|]). intros w' _. eauto.
Qed.

(** C1. On a task of four items, [update_progress] with [150.0] stores the
    clamped progress [100.0] but counts [int(150.0 / 100.0 * 4) = 6]
    completed items, where the clamped progress gives [4]; with [-50.0] it
    stores progress [0.0] and [-2] completed items, where the clamped
    progress gives [0]. The count is taken from the argument, not from the
    stored progress. *)
Theorem update_progress_counts_from_unclamped_progress :
  update_progress "t1" (float_of_Z 150) None upload_world
    = Returned tt
        (mkWorld
           {["t1" := set_estimated_time (Some (PyInt 0))
                       (set_completed_items 6 (set_progress f100 upload_task))]}
           false 2%nat second_clock) /\
  int_of_float (float_mul (SFdiv prec emax f100 f100) (float_of_Z 4)) = Ok 4 /\
  update_progress "t1" (float_of_Z (-50)) None upload_world
    = Returned tt
        (mkWorld
           {["t1" := set_completed_items (-2) (set_progress f0 upload_task)]}
           false 1%nat second_clock) /\
  int_of_float (float_mul (SFdiv prec emax f0 f100) (float_of_Z 4)) = Ok 0.
Proof. repeat split; vm_compute; reflexivity. Qed.

(** C4. The state reached from the empty registry by
    [create_task "t1" 4 7 "file_upload"] and [update_progress "t1" 150.0]
    holds a record with 6 completed items out of 4; with [-50.0] in place
    of [150.0] it holds [-2] completed items. *)
Theorem reachable_record_with_items_out_of_range :
  (exists t,
     reachable overshoot_world /\
     tasks overshoot_world !! "t1" = Some t /\
     total_items t = 4 /\ completed_items t = 6 /\ ~ items_in_range t) /\
  (exists t,
     reachable undershoot_world /\
     tasks undershoot_world !! "t1" = Some t /\
     total_items t = 4 /\ completed_items t = -2 /\ ~ items_in_range t).
Proof.
  split.
  - exists (set_estimated_time (Some (PyInt 0))
              (set_last_update 2000000
                 (set_completed_items 6
                    (set_progress f100 (created_upload_task 0 1000000))))).
    split; [repeat (apply reachable_call; [|simpl; try lia; exact I]); apply reachable_init|].
    split; [vm_compute; reflexivity|].
    repeat split. unfold items_in_range. simpl. lia.
  - exists (set_last_update 2000000
              (set_completed_items (-2)
                 (set_progress f0 (created_upload_task 0 1000000)))).
    split; [repeat (apply reachable_call; [|simpl; try lia; exact I]); apply reachable_init|].
    split; [vm_compute; reflexivity|].
    repeat split. unfold items_in_range. simpl. lia.
Qed.

(** ** Listing tasks *)

Lemma get_all_tasks_none w :
  lock w = false -> get_all_tasks None w = Returned (tasks w) w.
Proof.
  destruct w as [m l r c]; simpl; intros ->.
  unfold get_all_tasks. unfold_method. reflexivity.
Qed.

Lemma get_all_tasks_zero w :
  lock w = false -> get_all_tasks (Some 0) w = Returned (tasks w) w.
Proof.
  destruct w as [m l r c]; simpl; intros ->.
  unfold get_all_tasks. unfold_method. reflexivity.
Qed.

Lemma get_all_tasks_nonzero w p :
  lock w = false -> p <> 0 ->
  exists found,
    get_all_tasks (Some p) w = Returned found w /\
    forall k t, found !! k = Some t <-> tasks w !! k = Some t /\ profile_id t = p.
Proof.
  destruct w as [m l r c]; simpl; intros -> Hp.
  unfold get_all_tasks. unfold_method.
  destruct (Z.eqb_spec p 0) as [?|_]; [contradiction|]. simpl.
  eexists. split; [reflexivity|].
  intros k t. rewrite map_lookup_filter_Some. simpl.
  split; intros [H1 H2]; split; congruence.
Qed.

(** C9. On a registry with a task of profile [0] and a task of profile
    [7], [get_all_tasks(0)] returns the whole registry, the task of
    profile [7] included: the test [if profile_id:] takes [0] for an
    absent argument. *)
Theorem get_all_tasks_of_profile_zero_returns_all :
  get_all_tasks (Some 0) two_profiles_world
    = Returned (tasks two_profiles_world) two_profiles_world /\
  tasks two_profiles_world !! "b" = Some profile7_task /\
  profile_id profile7_task = 7.
Proof. repeat split. Qed.

Local Close Scope string_scope.

(** ** Sweeping old tasks *)

Lemma lookup_foldl_delete (ks : list string) (m : gmap string Task) (k : string) :
  foldl (fun m k => delete k m) m ks !! k = if bool_decide (k ∈ ks) then None else m !! k.
Proof.
  revert m. induction ks as [|k' ks IH]; intros m; simpl; [reflexivity|].
  rewrite IH. destruct (decide (k = k')) as [->|Hne].
  - rewrite lookup_delete_eq.
    rewrite (bool_decide_eq_true_2 (k' ∈ k' :: ks)) by apply list_elem_of_here.
    now destruct (bool_decide (k' ∈ ks)).
  - rewrite lookup_delete_ne by congruence.
    destruct (bool_decide_reflect (k ∈ ks)) as [Hin|Hnin].
    + now rewrite bool_decide_eq_true_2 by (now apply list_elem_of_further).
    + rewrite bool_decide_eq_false_2; [reflexivity|].
      intros Hin. apply elem_of_cons in Hin. destruct Hin; congruence.
Qed.

Lemma elem_of_tasks_to_remove (m : gmap string Task) (now : datetime) (age : Z) (k : string) :
  k ∈ (List.filter (fun kv => swept now age kv.2) (map_to_list m)).*1
  <-> exists t, m !! k = Some t /\ swept now age t = true.
Proof.
  rewrite list_elem_of_fmap. split.
  - intros [[k' t] [-> Hin]]. simpl.
    apply list_elem_of_In, List.filter_In in Hin. destruct Hin as [Hin Hs].
    apply list_elem_of_In, elem_of_map_to_list in Hin. eauto.
  - intros [t [Hk Hs]]. exists (k, t). split; [reflexivity|].
    apply list_elem_of_In, List.filter_In. split; [|exact Hs].
    now apply list_elem_of_In, elem_of_map_to_list.
Qed.

Lemma cleanup_old_tasks_result w age :
  lock w = false ->
  exists swept_tasks,
    cleanup_old_tasks age w
      = Returned tt (mkWorld swept_tasks false (S (reads w)) (wall w)) /\
    forall k,
      swept_tasks !! k =
        match tasks w !! k with
        | Some t => if swept (wall w (reads w)) age t then None else Some t
        | None => None
        end.
Proof.
  destruct w as [m l r c]; simpl; intros ->.
  unfold cleanup_old_tasks. unfold_method.
  eexists. split; [reflexivity|].
  intros k. rewrite lookup_foldl_delete.
  destruct (m !! k) as [t|] eqn:Hk.
  - destruct (swept (c r) age t) eqn:Hs.
    + rewrite bool_decide_eq_true_2; [reflexivity|].
      apply elem_of_tasks_to_remove. eauto.
    + rewrite bool_decide_eq_false_2; [reflexivity|].
      rewrite elem_of_tasks_to_remove. intros [t' [Ht' Hs']]. congruence.
  - now destruct (bool_decide _).
Qed.

(** With [max_age_minutes = 0] a record is swept exactly when it is
    terminal and was last updated strictly before the sweep. *)
Lemma swept_zero now t :
  swept now 0 t = true <-> status t <> running /\ last_update t < now.
Proof.
  unfold swept, age_minutes.
  destruct (Z.lt_ge_cases (last_update t) now) as [Hlt|Hge].
  - rewrite age_positive by lia. destruct (status t); intuition congruence.
  - rewrite age_not_positive by lia. destruct (status t); intuition (try congruence; lia).
Qed.

Local Open Scope string_scope.




Local Close Scope string_scope.

(** ** Invariants of the reachable states *)

Section Preservation.
Context (P : World -> Prop) (HP : on_tasks P).

Lemma preserves_ret {A} (a : A) : preserves P (ret a).
Proof. intros w Hw. exact Hw. Qed.

Lemma preserves_raise {A} (e : exn) : preserves P (@raise A e).
Proof. intros w Hw. exact Hw. Qed.

Lemma preserves_lift {A} (r : result A) : preserves P (lift r).
Proof. destruct r; [apply preserves_ret | apply preserves_raise]. Qed.

Lemma preserves_bind {A B} (c : M A) (k : A -> M B) :
  preserves P c -> (forall a, preserves P (k a)) -> preserves P (bind c k).
Proof.
  intros Hc Hk w Hw. specialize (Hc w Hw). unfold bind.
  destruct (c w) as [a w'|e w'|w']; simpl in *; [now apply Hk | exact Hc | exact Hc].
Qed.

Lemma preserves_contains k : preserves P (contains k).
Proof. intros w Hw. exact Hw. Qed.

Lemma preserves_getitem {A} k (field : Task -> A) : preserves P (getitem k field).
Proof. intros w Hw. unfold getitem. now destruct (tasks w !! k). Qed.

Lemma preserves_datetime_now : preserves P datetime_now.
Proof. intros w Hw. simpl. now apply (HP w). Qed.

Lemma preserves_with_lock {A} (body : M A) :
  preserves P body -> preserves P (with_lock body).
Proof.
  intros Hb w Hw. unfold with_lock, acquire.
  destruct (lock w); [exact Hw|].
  assert (Hw1 : P (with_lock_state true w)) by now apply (HP w).
  specialize (Hb _ Hw1).
  destruct (body (with_lock_state true w)) as [a w'|e w'|w']; simpl in *;
    try exact Hb; now apply (HP w').
Qed.
End Preservation.

Lemma all_tasks_on_tasks Q : on_tasks (all_tasks Q).
Proof. intros w w' H Hw k t. rewrite <- H. apply Hw. Qed.

Lemma preserves_setitem Q k (f : Task -> Task) :
  (forall t, Q t -> Q (f t)) -> preserves (all_tasks Q) (setitem k f).
Proof.
  intros Hf w Hw. unfold setitem.
  destruct (tasks w !! k) as [t|] eqn:Hk; simpl; [|exact Hw].
  intros k' t'. simpl. rewrite lookup_insert.
  case_decide; [|apply Hw].
  intros [= <-]. apply Hf. now apply (Hw k).
Qed.

Lemma progress_in_range_f0 t : progress t = f0 -> progress_in_range t.
Proof. intros H. unfold progress_in_range. rewrite H. split; reflexivity. Qed.

Ltac preserve_using known :=
  repeat first
    [ known
    | apply preserves_with_lock; [apply all_tasks_on_tasks|]
    | apply preserves_bind; [|intros ?]
    | apply preserves_contains
    | apply preserves_getitem
    | apply preserves_datetime_now; apply all_tasks_on_tasks
    | apply preserves_lift
    | apply preserves_ret
    | apply preserves_setitem; intros ? ?
    | match goal with |- preserves _ (if ?b then _ else _) => destruct b end ].

Ltac preserve := preserve_using fail.

Lemma update_progress_keeps_progress_in_range k p msg :
  preserves (all_tasks progress_in_range) (update_progress k p msg).
Proof.
  unfold update_progress. preserve; try assumption.
  apply clamp_in_range.
Qed.

Lemma increment_progress_keeps_progress_in_range k msg :
  preserves (all_tasks progress_in_range) (increment_progress k msg).
Proof.
  unfold increment_progress.
  preserve_using ltac:(apply update_progress_keeps_progress_in_range).
Qed.

Lemma complete_task_keeps_progress_in_range k msg :
  preserves (all_tasks progress_in_range) (complete_task k msg).
Proof.
  unfold complete_task. preserve; try assumption.
  split; reflexivity.
Qed.

Lemma fail_task_keeps_progress_in_range k err :
  preserves (all_tasks progress_in_range) (fail_task k err).
Proof. unfold fail_task. preserve; assumption. Qed.

Lemma create_task_keeps_progress_in_range k n p ty :
  preserves (all_tasks progress_in_range) (create_task k n p ty).
Proof.
  unfold create_task. preserve.
  intros w Hw k' t'. simpl. rewrite lookup_insert.
  case_decide; [|apply Hw].
  intros [= <-]. split; reflexivity.
Qed.

Lemma cleanup_old_tasks_keeps Q age : preserves (all_tasks Q) (cleanup_old_tasks age).
Proof.
  unfold cleanup_old_tasks. preserve.
  intros w Hw k t. simpl. rewrite lookup_foldl_delete.
  destruct (bool_decide _); [discriminate | apply Hw].
Qed.


(** * Further properties of the registry *)

(** ** Keeping a property through a method *)

Ltac keep hp step known :=
  repeat first
    [ known
    | apply preserves_with_lock; [hp|]
    | apply preserves_bind; [|intros ?]
    | apply preserves_contains
    | apply preserves_getitem
    | apply preserves_datetime_now; hp
    | apply preserves_lift
    | apply preserves_ret
    | step
    | match goal with |- preserves _ (if ?b then _ else _) => destruct b end ].

Lemma all_entries_on_tasks Q : on_tasks (all_entries Q).
Proof. intros w w' H Hw k t. rewrite <- H. apply Hw. Qed.

Lemma preserves_setitem_entries Q k (f : Task -> Task) :
  (forall t, Q k t -> Q k (f t)) -> preserves (all_entries Q) (setitem k f).
Proof.
  intros Hf w Hw. unfold setitem.
  destruct (tasks w !! k) as [t|] eqn:Hk; simpl; [|exact Hw].
  intros k' t'. simpl. rewrite lookup_insert.
  case_decide as Heq; [|apply Hw].
  intros [= <-]. subst k'. apply Hf. now apply Hw.
Qed.

Lemma preserves_delete_entries Q (ks : list string) (w : World) :
  all_entries Q w ->
  all_entries Q (with_tasks (foldl (fun m k => delete k m) (tasks w) ks) w).
Proof.
  intros Hw k t. simpl. rewrite lookup_foldl_delete.
  destruct (bool_decide _); [discriminate | apply Hw].
Qed.

(** ** An induction principle for the reachable states

    A property of the stored records holds in every reachable state as
    soon as it holds of a fresh record and is kept by each assignment that
    the methods make. *)
Section ReachableInvariant.
Context (Q : string -> Task -> Prop).
Hypothesis Q_fresh : forall k n p ty start last,
  0 < n ->
  Q k (mkTask k p ty n 0 f0 "Initializing..." "Starting task..." start last running None).
Hypothesis Q_progress : forall k t p,
  Q k t -> Q k (set_progress (py_min f100 (py_max f0 p)) t).
Hypothesis Q_progress_full : forall k t, Q k t -> Q k (set_progress f100 t).
Hypothesis Q_items : forall k t n, Q k t -> Q k (set_completed_items n t).
Hypothesis Q_message : forall k t m, Q k t -> Q k (set_message m t).
Hypothesis Q_step : forall k t m,
  Q k t -> Q k (set_current_step (_extract_step_from_message m) t).
Hypothesis Q_last_update : forall k t d, Q k t -> Q k (set_last_update d t).
Hypothesis Q_status : forall k t st, st <> running -> Q k t -> Q k (set_status st t).
Hypothesis Q_estimate : forall k t x,
  Q k t -> Q k (set_estimated_time (Some (py_max_int_float 0 x)) t).

Ltac keep_Q known :=
  keep ltac:(apply all_entries_on_tasks)
       ltac:(apply preserves_setitem_entries; intros ? ?)
       known.

Lemma update_progress_keeps k p msg : preserves (all_entries Q) (update_progress k p msg).
Proof. unfold update_progress. keep_Q fail; auto. Qed.

Lemma increment_progress_keeps k msg : preserves (all_entries Q) (increment_progress k msg).
Proof. unfold increment_progress. keep_Q ltac:(apply update_progress_keeps). Qed.

Lemma complete_task_keeps k msg : preserves (all_entries Q) (complete_task k msg).
Proof. unfold complete_task. keep_Q fail; auto. Qed.

Lemma fail_task_keeps k err : preserves (all_entries Q) (fail_task k err).
Proof. unfold fail_task. keep_Q fail; auto. Qed.

Lemma create_task_keeps k n p ty :
  0 < n -> preserves (all_entries Q) (create_task k n p ty).
Proof.
  intros Hn. unfold create_task. keep_Q fail.
  intros w Hw k' t'. simpl. rewrite lookup_insert.
  case_decide as Heq; [|apply Hw].
  intros [= <-]. subst k'. now apply Q_fresh.
Qed.

Lemma cleanup_old_tasks_keeps_entries age : preserves (all_entries Q) (cleanup_old_tasks age).
Proof.
  unfold cleanup_old_tasks. keep_Q fail.
  intros w Hw. now apply preserves_delete_entries.
Qed.

Lemma run_call_keeps c : positive_total c -> preserves (all_entries Q) (run_call c).
Proof.
  destruct c; simpl; intros Hc.
  - apply preserves_bind; [now apply create_task_keeps | intros ?; apply preserves_ret].
  - apply update_progress_keeps.
  - apply increment_progress_keeps.
  - apply complete_task_keeps.
  - apply fail_task_keeps.
  - apply cleanup_old_tasks_keeps_entries.
Qed.

Lemma reachable_all_entries w : reachable w -> all_entries Q w.
Proof.
  induction 1 as [clock|w c Hw IH Hc].
  - intros k t. simpl. now rewrite lookup_empty.
  - now apply run_call_keeps.
Qed.
End ReachableInvariant.

(** ** Invariants of the stored records *)


Lemma reachable_first_task :
  reachable (world_after (run_call (CreateTask "t1" 4 7 "file_upload") (init second_clock))).
Proof. apply reachable_call; [apply reachable_init | simpl; lia]. Qed.



(** X15. When every task is created with at least one item, every record of
    every reachable state has [total_items > 0]: no method assigns that
    field after creation. *)
Theorem reachable_total_items_positive w k t :
  reachable w -> tasks w !! k = Some t -> 0 < total_items t.
Proof.
  intros Hw. revert k t.
  apply (reachable_all_entries (fun _ t => 0 < total_items t)); auto.
Qed.

Lemma reachable_total_items_positive_witness :
  0 < total_items (created_upload_task 0 1000000).
Proof.
  apply (reachable_total_items_positive
           (world_after (run_call (CreateTask "t1" 4 7 "file_upload") (init second_clock)))
           "t1" (created_upload_task 0 1000000) reachable_first_task).
  vm_compute. reflexivity.
Defined.





(** ** What a call leaves alone *)

Lemma lookup_on_tasks (k : string) (v : option Task) :
  on_tasks (fun w => tasks w !! k = v).
Proof. intros w w' H Hw. now rewrite <- H. Qed.

Lemma preserves_setitem_other (k k' : string) (v : option Task) (f : Task -> Task) :
  k <> k' -> preserves (fun w => tasks w !! k = v) (setitem k' f).
Proof.
  intros Hne w Hw. unfold setitem.
  destruct (tasks w !! k') as [t|]; simpl; [|exact Hw].
  now rewrite lookup_insert_ne by congruence.
Qed.

Ltac keep_other Hne known :=
  keep ltac:(apply lookup_on_tasks)
       ltac:(apply preserves_setitem_other; exact Hne)
       known.

Lemma update_progress_other (k k' : string) v p msg :
  k <> k' -> preserves (fun w => tasks w !! k = v) (update_progress k' p msg).
Proof. intros Hne. unfold update_progress. keep_other Hne fail. Qed.

Lemma run_call_other (k k' : string) v c :
  target c = Some k' -> k <> k' -> preserves (fun w => tasks w !! k = v) (run_call c).
Proof.
  intros Hc Hne. destruct c; simpl in Hc; try discriminate;
    injection Hc as ->; simpl run_call.
  - unfold create_task. keep_other Hne fail.
    intros w Hw. simpl. now rewrite lookup_insert_ne by congruence.
  - now apply update_progress_other.
  - unfold increment_progress.
    keep_other Hne ltac:(apply update_progress_other; exact Hne).
  - unfold complete_task. keep_other Hne fail.
  - unfold fail_task. keep_other Hne fail.
Qed.

(** X12. A call that names a task id leaves the record of every other id as it
    was, whether the call returns, raises or blocks, and whatever the
    state of the lock. *)
Theorem call_leaves_other_records w c (k k' : string) :
  target c = Some k' -> k <> k' ->
  tasks (world_after (run_call c w)) !! k = tasks w !! k.
Proof.
  intros Hc Hne. now apply (run_call_other k k' (tasks w !! k) c Hc Hne w).
Qed.

Lemma call_leaves_other_records_witness :
  tasks (world_after (run_call (CompleteTask "a" "done") two_profiles_world)) !! "b"
  = tasks two_profiles_world !! "b".
Proof.
  apply (call_leaves_other_records two_profiles_world (CompleteTask "a" "done") "b" "a");
    [reflexivity | discriminate].
Defined.

Lemma dom_on_tasks (D : gset string) : on_tasks (fun w => dom (tasks w) = D).
Proof. intros w w' H Hw. now rewrite <- H. Qed.

Lemma preserves_setitem_dom (D : gset string) (k : string) (f : Task -> Task) :
  preserves (fun w => dom (tasks w) = D) (setitem k f).
Proof.
  intros w Hw. unfold setitem.
  destruct (tasks w !! k) as [t|] eqn:Hk; simpl; [|exact Hw].
  now rewrite dom_insert_lookup_L by (rewrite Hk; eauto).
Qed.

Ltac keep_dom known :=
  keep ltac:(apply dom_on_tasks) ltac:(apply preserves_setitem_dom) known.

Lemma update_progress_dom D k p msg :
  preserves (fun w => dom (tasks w) = D) (update_progress k p msg).
Proof. unfold update_progress. keep_dom fail. Qed.

(** X13. [update_progress], [increment_progress], [complete_task] and
    [fail_task] neither register nor remove a task id, however they end. *)
Theorem mutators_keep_task_ids w c :
  is_mutator c = true ->
  dom (tasks (world_after (run_call c w))) = dom (tasks w).
Proof.
  intros Hc.
  assert (H : preserves (fun w' => dom (tasks w') = dom (tasks w)) (run_call c)).
  { destruct c; try discriminate; simpl run_call.
    - apply update_progress_dom.
    - unfold increment_progress. keep_dom ltac:(apply update_progress_dom).
    - unfold complete_task. keep_dom fail.
    - unfold fail_task. keep_dom fail. }
  now apply H.
Qed.

Lemma mutators_keep_task_ids_witness :
  dom (tasks (world_after (run_call (FailTask "zz" "boom") two_profiles_world)))
  = dom (tasks two_profiles_world).
Proof.
  apply (mutators_keep_task_ids two_profiles_world (FailTask "zz" "boom")). reflexivity.
Defined.

(** ** The lock *)

Lemma never_blocks_ret {A} (a : A) : never_blocks (ret a).
Proof. intros w. exact I. Qed.

Lemma never_blocks_lift {A} (r : result A) : never_blocks (lift r).
Proof. intros w. now destruct r. Qed.

Lemma never_blocks_bind {A B} (c : M A) (k : A -> M B) :
  never_blocks c -> (forall a, never_blocks (k a)) -> never_blocks (bind c k).
Proof.
  intros Hc Hk w. unfold bind. specialize (Hc w).
  destruct (c w) as [a w'|e w'|w']; [apply Hk | exact I | exact Hc].
Qed.

Lemma never_blocks_contains k : never_blocks (contains k).
Proof. intros w. exact I. Qed.

Lemma never_blocks_getitem {A} k (field : Task -> A) : never_blocks (getitem k field).
Proof. intros w. unfold getitem. now destruct (tasks w !! k). Qed.

Lemma never_blocks_setitem k f : never_blocks (setitem k f).
Proof. intros w. unfold setitem. now destruct (tasks w !! k). Qed.

Lemma never_blocks_datetime_now : never_blocks datetime_now.
Proof. intros w. exact I. Qed.

Ltac no_block :=
  repeat first
    [ apply never_blocks_bind; [|intros ?]
    | apply never_blocks_contains
    | apply never_blocks_getitem
    | apply never_blocks_setitem
    | apply never_blocks_datetime_now
    | apply never_blocks_lift
    | apply never_blocks_ret
    | match goal with |- never_blocks (if ?b then _ else _) => destruct b end
    | (intros ?; exact I) ].

(** A [with self.lock] block whose body takes no lock, entered with the
    lock free, ends with the lock free and does not block. *)
Lemma with_lock_free {A} (body : M A) w :
  never_blocks body -> lock w = false ->
  match with_lock body w with
  | Returned _ w' | Raised _ w' => lock w' = false
  | Blocked _ => False
  end.
Proof.
  intros Hb H. unfold with_lock, acquire. rewrite H.
  specialize (Hb (with_lock_state true w)).
  now destruct (body (with_lock_state true w)).
Qed.

Lemma increment_progress_tasks w k msg :
  tasks (world_after (increment_progress k msg w)) = tasks w.
Proof.
  destruct w as [m l r c]. destruct l.
  - unfold increment_progress. now rewrite with_lock_held.
  - unfold increment_progress. unfold_method.
    destruct (m !! k) as [t|] eqn:Hk; run_method Hk; [|reflexivity].
    destruct (int_truediv (completed_items t + 1) (total_items t)); reflexivity.
Qed.

(** X9. [increment_progress] changes no record, however it ends and whatever
    the state of the lock: either the id is unknown, or the division
    raises, or the call blocks before [update_progress] does anything. *)
Theorem increment_progress_changes_nothing w k msg :
  tasks (world_after (increment_progress k msg w)) = tasks w.
Proof. apply increment_progress_tasks. Qed.

Lemma run_call_lock w c :
  lock w = false ->
  match run_call c w with
  | Returned _ w' | Raised _ w' => lock w' = false
  | Blocked w' => (exists k msg, c = IncrementProgress k msg) /\ lock w' = true
  end.
Proof.
  intros Hfree.
  assert (Hnb : forall (body : M unit),
             never_blocks body ->
             match with_lock body w with
             | Returned _ w' | Raised _ w' => lock w' = false
             | Blocked w' => (exists k msg, c = IncrementProgress k msg) /\ lock w' = true
             end).
  { intros body Hb. pose proof (with_lock_free body w Hb Hfree) as H.
    now destruct (with_lock body w). }
  destruct c as [k n p ty|k p msg|k msg|k msg|k err|age]; simpl run_call.
  - unfold bind. now rewrite create_task_result.
  - apply Hnb. no_block.
  - destruct w as [m l r c]; simpl in Hfree; subst l.
    unfold increment_progress. unfold_method.
    destruct (m !! k) as [t|] eqn:Hk; run_method Hk; [|reflexivity].
    destruct (int_truediv (completed_items t + 1) (total_items t)); simpl; eauto.
  - apply Hnb. no_block.
  - apply Hnb. no_block.
  - apply Hnb. no_block.
Qed.

(** X11. On a free lock every call other than [increment_progress] ends, by a
    return or a raise, with the lock free again; [increment_progress]
    either does the same or blocks with the lock held. *)
Theorem calls_release_the_lock w c :
  lock w = false ->
  match run_call c w with
  | Returned _ w' | Raised _ w' => lock w' = false
  | Blocked w' => (exists k msg, c = IncrementProgress k msg) /\ lock w' = true
  end.
Proof. apply run_call_lock. Qed.

Lemma calls_release_the_lock_witness :
  match run_call (UpdateProgress "t1" (float_of_Z 150) None) upload_world with
  | Returned _ w' | Raised _ w' => lock w' = false
  | Blocked w' =>
      (exists k msg, UpdateProgress "t1" (float_of_Z 150) None = IncrementProgress k msg) /\
      lock w' = true
  end.
Proof.
  apply (calls_release_the_lock upload_world (UpdateProgress "t1" (float_of_Z 150) None)).
  reflexivity.
Defined.

Lemma held_lock_blocks w :
  lock w = true ->
  (forall c, run_call c w = Blocked w) /\
  (forall k, get_progress k w = Blocked w) /\
  (forall p, get_all_tasks p w = Blocked w).
Proof.
  intros H. split; [|split; intros; now apply with_lock_held].
  intros [] ; simpl; try now apply with_lock_held.
  unfold create_task, bind. now rewrite with_lock_held.
Qed.

(** X10. When a call of [increment_progress] blocks, it leaves the lock held for
    ever: from then on every method blocks as well, queries included, so
    the registry answers nothing any more. *)
Theorem blocked_increment_wedges_registry w k msg w' :
  lock w = false ->
  increment_progress k msg w = Blocked w' ->
  tasks w' = tasks w /\
  (forall fuel, acquire_within fuel w' = None) /\
  (forall c, run_call c w' = Blocked w') /\
  (forall k', get_progress k' w' = Blocked w') /\
  (forall p, get_all_tasks p w' = Blocked w').
Proof.
  intros Hfree Hinc.
  pose proof (run_call_lock w (IncrementProgress k msg) Hfree) as Hl.
  pose proof (increment_progress_tasks w k msg) as Ht.
  simpl in Hl. rewrite Hinc in Hl, Ht. destruct Hl as [_ Hheld].
  split; [exact Ht|]. split; [now apply acquire_within_held|].
  now apply held_lock_blocks.
Qed.

Lemma blocked_increment_wedges_registry_witness :
  let w' := with_lock_state true upload_world in
  tasks w' = tasks upload_world /\
  (forall fuel, acquire_within fuel w' = None) /\
  (forall c, run_call c w' = Blocked w') /\
  (forall k', get_progress k' w' = Blocked w') /\
  (forall p, get_all_tasks p w' = Blocked w').
Proof.
  apply (blocked_increment_wedges_registry upload_world "t1" None
           (with_lock_state true upload_world)); reflexivity.
Defined.

(** ** Creation over an existing id *)

(** X1. [create_task] on an id that is already registered raises nothing: it
    replaces the stored record, whatever its status and progress, by a
    fresh running record whose start time and last update are the two
    clock readings of the call; the set of registered ids is unchanged. *)
Theorem create_task_replaces_record w k n p ty old :
  lock w = false -> tasks w !! k = Some old ->
  exists w',
    create_task k n p ty w = Returned k w' /\
    tasks w' !! k =
      Some (mkTask k p ty n 0 f0 "Initializing..." "Starting task..."
              (wall w (reads w)) (wall w (S (reads w))) running None) /\
    dom (tasks w') = dom (tasks w) /\
    lock w' = false.
Proof.
  intros Hfree Hold. eexists.
  split; [now apply create_task_result|]. simpl.
  split; [apply lookup_insert_eq|].
  split; [|reflexivity].
  apply dom_insert_lookup_L. rewrite Hold. eauto.
Qed.

Lemma create_task_replaces_record_witness :
  exists w',
    create_task "t1" 9 3 "transcription" just_completed_world = Returned "t1"%string w' /\
    tasks w' !! "t1" =
      Some (mkTask "t1" 3 "transcription" 9 0 f0 "Initializing..." "Starting task..."
              (wall just_completed_world (reads just_completed_world))
              (wall just_completed_world (S (reads just_completed_world))) running None) /\
    dom (tasks w') = dom (tasks just_completed_world) /\
    lock w' = false.
Proof.
  apply (create_task_replaces_record just_completed_world "t1" 9 3 "transcription"
           just_completed_task); reflexivity.
Defined.

(** ** What [update_progress] assigns *)

Lemma update_progress_effect w k p msg t :
  lock w = false -> tasks w !! k = Some t ->
  exists t',
    tasks (world_after (update_progress k p msg w)) = <[k := t']> (tasks w) /\
    lock (world_after (update_progress k p msg w)) = false /\
    same_identity t t' /\ status t' = status t /\
    progress t' = py_min f100 (py_max f0 p).
Proof.
  destruct w as [m l r c]; simpl; intros -> H.
  unfold update_progress, same_identity. unfold_method. run_method H.
  destruct (float_mul_int (SFdiv prec emax p f100) (total_items t)) as [scaled|e]; simpl.
  2:{ eexists. repeat split. }
  destruct (int_of_float scaled) as [items|e]; simpl.
  2:{ eexists. repeat split. }
  destruct (truthy_str msg); run_method H.
  - destruct (float_gt_int p 0); run_method H.
    + destruct (float_truediv _ (SFdiv prec emax p f100)) as [est|e]; run_method H;
        eexists; repeat split.
    + eexists. repeat split.
  - destruct (float_gt_int p 0); run_method H.
    + destruct (float_truediv _ (SFdiv prec emax p f100)) as [est|e]; run_method H;
        eexists; repeat split.
    + eexists. repeat split.
Qed.

(** X2. However [update_progress] ends on a registered id, the record keeps
    its task id, profile id, task type, total items, start time and
    status: the call never makes a terminal task running again, nor a
    running task terminal. *)
Theorem update_progress_keeps_identity_and_status w k p msg t :
  lock w = false -> tasks w !! k = Some t ->
  exists t',
    tasks (world_after (update_progress k p msg w)) !! k = Some t' /\
    same_identity t t' /\ status t' = status t.
Proof.
  intros Hfree Hk.
  destruct (update_progress_effect w k p msg t Hfree Hk) as (t' & Ht & _ & Hid & Hst & _).
  exists t'. rewrite Ht, lookup_insert_eq. auto.
Qed.

Lemma update_progress_keeps_identity_and_status_witness :
  exists t',
    tasks (world_after (update_progress "t1" (float_of_Z 30) (Some "Uploading"%string)
                          just_completed_world)) !! "t1" = Some t' /\
    same_identity just_completed_task t' /\ status t' = status just_completed_task.
Proof.
  apply (update_progress_keeps_identity_and_status just_completed_world "t1"
           (float_of_Z 30) (Some "Uploading"%string) just_completed_task); reflexivity.
Defined.

(** X3. When [update_progress] returns on a registered id, the last update is
    the first clock reading of the call; a non-empty message is stored and
    the current step is derived from it, while an absent or empty message
    leaves the message and the current step as they were; and a progress
    that is not above zero leaves the estimated time as it was. *)
Theorem update_progress_message_and_time w k p msg t w' :
  lock w = false -> tasks w !! k = Some t ->
  update_progress k p msg w = Returned tt w' ->
  exists t',
    tasks w' !! k = Some t' /\
    last_update t' = wall w (reads w) /\
    (truthy_str msg = true ->
       message t' = default EmptyString msg /\
       current_step t' = _extract_step_from_message (default EmptyString msg)) /\
    (truthy_str msg = false ->
       message t' = message t /\ current_step t' = current_step t) /\
    (float_gt_int p 0 = false -> estimated_time t' = estimated_time t).
Proof.
  destruct w as [m l r c]; simpl; intros -> H.
  unfold update_progress. unfold_method. run_method H.
  destruct (float_mul_int (SFdiv prec emax p f100) (total_items t)) as [scaled|e]; simpl;
    [|discriminate].
  destruct (int_of_float scaled) as [items|e]; simpl; [|discriminate].
  destruct (truthy_str msg); run_method H.
  - destruct (float_gt_int p 0); run_method H.
    + destruct (float_truediv _ (SFdiv prec emax p f100)) as [est|e]; run_method H;
        intros [= <-]; simpl; rewrite lookup_insert_eq; eexists; split; [reflexivity|];
        repeat split; intros; try discriminate; reflexivity.
    + intros [= <-]; simpl; rewrite lookup_insert_eq; eexists; split; [reflexivity|];
        repeat split; intros; try discriminate; reflexivity.
  - destruct (float_gt_int p 0); run_method H.
    + destruct (float_truediv _ (SFdiv prec emax p f100)) as [est|e]; run_method H;
        intros [= <-]; simpl; rewrite lookup_insert_eq; eexists; split; [reflexivity|];
        repeat split; intros; try discriminate; reflexivity.
    + intros [= <-]; simpl; rewrite lookup_insert_eq; eexists; split; [reflexivity|];
        repeat split; intros; try discriminate; reflexivity.
Qed.

(** ** Progress that is not a finite number *)

Lemma pos_iter_xO (m n : positive) : Z.pos (Pos.iter xO m n) = Z.pos m * 2 ^ Z.pos n.
Proof.
  change (Pos.iter xO m n) with (Zpower.shift_pos n m).
  rewrite Zpower.shift_pos_correct. change (Z.pow_pos 2 n) with (2 ^ Z.pos n). lia.
Qed.

(** The conversion of a non-zero integer below [2 ^ 1023] in absolute
    value is a finite float of the same sign. *)
Lemma float_of_Z_nonzero z :
  z <> 0 -> Z.abs z < 2 ^ 1023 ->
  exists m e, float_of_Z z = S754_finite (z <? 0) m e.
Proof.
  intros Hz Hr.
  assert (Hgen : forall s m, Z.pos m < 2 ^ 1023 ->
            exists m' e, binary_round prec emax s m 0 = S754_finite s m' e).
  { intros s m Hm. unfold binary_round, shl_align.
    destruct (Zdigits2_bounds (Z.pos m) ltac:(lia)) as [Hd [Hlo Hhi]].
    assert (Hd' : Zdigits2 (Z.pos m) <= 1023) by (apply Zdigits2_le; lia).
    simpl Zdigits2 in Hd, Hlo, Hhi, Hd'.
    unfold fexp, SpecFloat.emin, prec, emax.
    set (d := Z.pos (digits2_pos m)) in *.
    destruct (Z.max (d + 0 - 53) (3 - 1024 - 53) - 0) as [|n|n] eqn:Hn.
    - destruct (binary_round_aux_pos s (Z.pos m) 0 loc_Exact) as [(m' & e & H & _)|H];
        [lia | lia | eauto |].
      exfalso. revert H. apply binary_round_aux_finite; simpl Zdigits2; lia.
    - destruct (binary_round_aux_pos s (Z.pos m) 0 loc_Exact) as [(m' & e & H & _)|H];
        [lia | lia | eauto |].
      exfalso. revert H. apply binary_round_aux_finite; simpl Zdigits2; lia.
    - assert (Hmz : Z.pos (Pos.iter xO m n) < 2 ^ (d + Z.pos n)).
      { rewrite pos_iter_xO, Z.pow_add_r by lia.
        apply Z.mul_lt_mono_pos_r; [apply Z.pow_pos_nonneg; lia | exact Hhi]. }
      assert (Zdigits2 (Z.pos (Pos.iter xO m n)) <= d + Z.pos n)
        by (apply Zdigits2_le; lia).
      destruct (binary_round_aux_pos s (Z.pos (Pos.iter xO m n))
                  (Z.max (d + 0 - 53) (3 - 1024 - 53)) loc_Exact)
        as [(m' & e & H' & _)|H']; [lia | lia | eauto |].
      exfalso. revert H'. apply binary_round_aux_finite; lia. }
  unfold float_of_Z, binary_normalize.
  destruct z as [|m|m]; [congruence | apply Hgen; lia | apply Hgen; lia].
Qed.

Lemma float_of_int_in_range z :
  Z.abs z < 2 ^ 1023 -> float_of_int z = Ok (float_of_Z z).
Proof.
  intros Hr. unfold float_of_int.
  destruct (Z.eq_dec z 0) as [->|Hz]; [reflexivity|].
  destruct (float_of_Z_nonzero z Hz Hr) as (m & e & ->). reflexivity.
Qed.

(** X4. [update_progress] with NaN raises [ValueError] after it has stored the
    progress [0.0]; with an infinity, on a task whose [total_items] is not
    zero, it raises [OverflowError] after it has stored [100.0] (plus
    infinity) or [0.0] (minus infinity). In both cases nothing else is
    assigned and the lock is released. ([total_items] is taken below
    [2 ^ 1023] in absolute value, so that it converts to a float.) *)
Theorem update_progress_non_finite w k msg t :
  lock w = false -> tasks w !! k = Some t -> Z.abs (total_items t) < 2 ^ 1023 ->
  update_progress k S754_nan msg w
    = Raised ValueError
        (mkWorld (<[k := set_progress f0 t]> (tasks w)) false (reads w) (wall w)) /\
  (total_items t <> 0 ->
   forall s,
     update_progress k (S754_infinity s) msg w
       = Raised OverflowError
           (mkWorld (<[k := set_progress (if s then f0 else f100) t]> (tasks w))
                    false (reads w) (wall w))).
Proof.
  destruct w as [m l r c]; simpl; intros -> H Hr.
  split.
  - unfold update_progress. unfold_method. run_method H.
    unfold float_mul_int. rewrite float_of_int_in_range by exact Hr. reflexivity.
  - intros Hz s.
    destruct (float_of_Z_nonzero (total_items t) Hz Hr) as (m' & e & Hf).
    unfold update_progress. unfold_method. run_method H.
    unfold float_mul_int. rewrite float_of_int_in_range by exact Hr. rewrite Hf.
    destruct s; reflexivity.
Qed.

Lemma update_progress_non_finite_witness :
  update_progress "t1" S754_nan None upload_world
    = Raised ValueError
        (mkWorld (<["t1"%string := set_progress f0 upload_task]> (tasks upload_world)) false
                 (reads upload_world) (wall upload_world)) /\
  (total_items upload_task <> 0 ->
   forall s,
     update_progress "t1" (S754_infinity s) None upload_world
       = Raised OverflowError
           (mkWorld (<["t1"%string := set_progress (if s then f0 else f100) upload_task]>
                       (tasks upload_world))
                    false (reads upload_world) (wall upload_world))).
Proof.
  apply (update_progress_non_finite upload_world "t1" None upload_task);
    [reflexivity | reflexivity | vm_compute; reflexivity].
Defined.

(** ** Counting items on a task without items *)

(** X8. On a registered task whose [total_items] is [0], [increment_progress]
    raises [ZeroDivisionError]; the lock is released and the state is
    exactly what it was. *)
Theorem increment_progress_zero_total w k msg t :
  lock w = false -> tasks w !! k = Some t -> total_items t = 0 ->
  increment_progress k msg w = Raised ZeroDivisionError w.
Proof.
  intros Hfree Hk Hz.
  apply (increment_progress_raises w k msg t ZeroDivisionError Hfree Hk).
  rewrite Hz. reflexivity.
Qed.

Lemma increment_progress_zero_total_witness :
  increment_progress "t0" (Some "next"%string) empty_batch_world
  = Raised ZeroDivisionError empty_batch_world.
Proof.
  apply (increment_progress_zero_total empty_batch_world "t0" (Some "next"%string)
           empty_batch_task); reflexivity.
Defined.

(** ** Terminal calls *)

(** X7. [complete_task] and [fail_task] keep the task id, profile id, task
    type, total items and start time of the record, and also its current
    step and estimated time: the step is not derived again from the final
    message. The last update becomes the clock reading of the call. *)
Theorem terminal_calls_keep_step_and_estimate w k text t :
  lock w = false -> tasks w !! k = Some t ->
  (exists w' t',
     complete_task k text w = Returned tt w' /\ tasks w' !! k = Some t' /\
     same_identity t t' /\ current_step t' = current_step t /\
     estimated_time t' = estimated_time t /\ last_update t' = wall w (reads w)) /\
  (exists w' t',
     fail_task k text w = Returned tt w' /\ tasks w' !! k = Some t' /\
     same_identity t t' /\ current_step t' = current_step t /\
     estimated_time t' = estimated_time t /\ last_update t' = wall w (reads w)).
Proof.
  intros Hfree Hk. split.
  - eexists; eexists. split; [apply (complete_task_known _ _ _ _ Hfree Hk)|].
    split; [simpl; apply lookup_insert_eq|]. unfold same_identity. repeat split.
  - eexists; eexists. split; [apply (fail_task_known _ _ _ _ Hfree Hk)|].
    split; [simpl; apply lookup_insert_eq|]. unfold same_identity. repeat split.
Qed.

Lemma terminal_calls_keep_step_and_estimate_witness :
  (exists w' t',
     complete_task "t1" "done" upload_world = Returned tt w' /\ tasks w' !! "t1" = Some t' /\
     same_identity upload_task t' /\ current_step t' = current_step upload_task /\
     estimated_time t' = estimated_time upload_task /\
     last_update t' = wall upload_world (reads upload_world)) /\
  (exists w' t',
     fail_task "t1" "done" upload_world = Returned tt w' /\ tasks w' !! "t1" = Some t' /\
     same_identity upload_task t' /\ current_step t' = current_step upload_task /\
     estimated_time t' = estimated_time upload_task /\
     last_update t' = wall upload_world (reads upload_world)).
Proof.
  apply (terminal_calls_keep_step_and_estimate upload_world "t1" "done" upload_task);
    reflexivity.
Defined.

(** X6. A progress update after completion is not refused: the status stays
    completed, but the stored progress becomes the clamp of the new value,
    which can be below [100.0]. *)
Theorem update_after_complete_overwrites_progress w k text p msg t :
  lock w = false -> tasks w !! k = Some t ->
  exists w1 t',
    complete_task k text w = Returned tt w1 /\
    tasks (world_after (update_progress k p msg w1)) !! k = Some t' /\
    status t' = completed /\
    progress t' = py_min f100 (py_max f0 p) /\
    total_items t' = total_items t.
Proof.
  intros Hfree Hk.
  eexists. 
  assert (Hc := complete_task_known w k text t Hfree Hk).
  match type of Hc with _ = Returned tt ?w1 =>
    destruct (update_progress_effect w1 k p msg _ eq_refl (lookup_insert_eq _ _ _))
      as (t' & Ht & _ & Hid & Hst & Hp)
  end.
  exists t'. split; [exact Hc|].
  rewrite Ht, lookup_insert_eq.
  destruct Hid as (_ & _ & _ & Htot & _).
  auto.
Qed.

Lemma update_after_complete_overwrites_progress_witness :
  exists w1 t',
    complete_task "t1" "done" upload_world = Returned tt w1 /\
    tasks (world_after (update_progress "t1" (float_of_Z 30) None w1)) !! "t1" = Some t' /\
    status t' = completed /\
    progress t' = py_min f100 (py_max f0 (float_of_Z 30)) /\
    total_items t' = total_items upload_task.
Proof.
  apply (update_after_complete_overwrites_progress upload_world "t1" "done"
           (float_of_Z 30) None upload_task); reflexivity.
Defined.

(** ** The sweep, for every age limit *)




(** X20. A task that is completed, or failed, is removed by a following
    [cleanup_old_tasks(0)] as soon as the clock has advanced between the
    two calls; a query of its id then finds nothing. *)
Theorem terminal_task_swept_once_clock_advances w k text t :
  lock w = false -> tasks w !! k = Some t ->
  wall w (reads w) < wall w (S (reads w)) ->
  (exists w1 w2,
     complete_task k text w = Returned tt w1 /\
     cleanup_old_tasks 0 w1 = Returned tt w2 /\
     get_progress k w2 = Returned None w2) /\
  (exists w1 w2,
     fail_task k text w = Returned tt w1 /\
     cleanup_old_tasks 0 w1 = Returned tt w2 /\
     get_progress k w2 = Returned None w2).
Proof.
  intros Hfree Hk Hclock.
  assert (Hsweep : forall w1 t1,
            lock w1 = false -> tasks w1 !! k = Some t1 -> status t1 <> running ->
            last_update t1 < wall w1 (reads w1) ->
            exists w2, cleanup_old_tasks 0 w1 = Returned tt w2 /\
                       get_progress k w2 = Returned None w2).
  { intros w1 t1 Hf1 Hk1 Hst Hlt.
    destruct (cleanup_old_tasks_result w1 0 Hf1) as (m' & Hrun & Hlook).
    eexists. split; [exact Hrun|].
    rewrite get_progress_result by reflexivity. simpl.
    rewrite Hlook, Hk1, (proj2 (swept_zero _ t1)); auto. }
  split.
  - pose proof (complete_task_known w k text t Hfree Hk) as Hc.
    match type of Hc with _ = Returned tt ?w1 =>
      destruct (Hsweep w1 _ eq_refl (lookup_insert_eq _ _ _)
                  ltac:(simpl; discriminate) Hclock) as (w2 & H2 & H3)
    end.
    eexists; exists w2. split; [exact Hc|]. auto.
  - pose proof (fail_task_known w k text t Hfree Hk) as Hc.
    match type of Hc with _ = Returned tt ?w1 =>
      destruct (Hsweep w1 _ eq_refl (lookup_insert_eq _ _ _)
                  ltac:(simpl; discriminate) Hclock) as (w2 & H2 & H3)
    end.
    eexists; exists w2. split; [exact Hc|]. auto.
Qed.

(** ** The step derived from a message *)







(** ** The progress endpoints *)

(** X23. Each progress endpoint answers the 404 "Task not found" exactly when
    the id is not registered, and otherwise the stored record; it leaves
    the state as it was. *)
Theorem progress_endpoints_find_registered_ids w k :
  lock w = false ->
  get_upload_progress k w
    = Returned (match tasks w !! k with
                | Some t => Success t
                | None => HTTPException 404 "Task not found"
                end) w /\
  get_transcription_progress k w = get_upload_progress k w /\
  (tasks w !! k = None <->
   get_upload_progress k w = Returned (HTTPException 404 "Task not found") w).
Proof.
  intros Hfree.
  assert (H : get_upload_progress k w
              = Returned (match tasks w !! k with
                          | Some t => Success t
                          | None => HTTPException 404 "Task not found"
                          end) w).
  { unfold get_upload_progress, bind. rewrite get_progress_result by assumption.
    now destruct (tasks w !! k). }
  split; [exact H|]. split; [reflexivity|].
  rewrite H. destruct (tasks w !! k); split; intros; congruence.
Qed.

Lemma progress_endpoints_find_registered_ids_witness :
  get_upload_progress "t1" upload_world
    = Returned (match tasks upload_world !! "t1" with
                | Some t => Success t
                | None => HTTPException 404 "Task not found"
                end) upload_world /\
  get_transcription_progress "t1" upload_world = get_upload_progress "t1" upload_world /\
  (tasks upload_world !! "t1" = None <->
   get_upload_progress "t1" upload_world
     = Returned (HTTPException 404 "Task not found") upload_world).
Proof. apply (progress_endpoints_find_registered_ids upload_world "t1"). reflexivity. Defined.

(** ** Witnesses of earlier lemmas *)

(** X21. [get_all_tasks] with a profile id that is not zero returns exactly the
    records whose profile id is that one; without a profile id it returns
    all the records; in both cases the state is unchanged. *)
Theorem get_all_tasks_selects_profile w p :
  lock w = false -> p <> 0 ->
  (exists found,
     get_all_tasks (Some p) w = Returned found w /\
     forall k t, found !! k = Some t <-> tasks w !! k = Some t /\ profile_id t = p) /\
  get_all_tasks None w = Returned (tasks w) w.
Proof.
  intros Hfree Hp. split; [now apply get_all_tasks_nonzero | now apply get_all_tasks_none].
Qed.

Lemma get_all_tasks_selects_profile_witness :
  (exists found,
     get_all_tasks (Some 7) two_profiles_world = Returned found two_profiles_world /\
     forall k t, found !! k = Some t <->
                 tasks two_profiles_world !! k = Some t /\ profile_id t = 7) /\
  get_all_tasks None two_profiles_world
    = Returned (tasks two_profiles_world) two_profiles_world.
Proof. apply (get_all_tasks_selects_profile two_profiles_world 7); [reflexivity | lia]. Defined.


Lemma update_progress_message_and_time_witness :
  exists t',
    tasks (mkWorld {["t1"%string :=
                       set_estimated_time (Some (PyInt 0))
                         (set_current_step "Uploading"
                            (set_message "Uploaded a.wav (1/4)"
                               (set_completed_items 6 (set_progress f100 upload_task))))]}
                   false 2%nat second_clock) !! "t1" = Some t' /\
    last_update t' = wall upload_world (reads upload_world) /\
    (truthy_str (Some "Uploaded a.wav (1/4)"%string) = true ->
       message t' = default EmptyString (Some "Uploaded a.wav (1/4)"%string) /\
       current_step t'
         = _extract_step_from_message (default EmptyString (Some "Uploaded a.wav (1/4)"%string))) /\
    (truthy_str (Some "Uploaded a.wav (1/4)"%string) = false ->
       message t' = message upload_task /\ current_step t' = current_step upload_task) /\
    (float_gt_int (float_of_Z 150) 0 = false ->
       estimated_time t' = estimated_time upload_task).
Proof.
  apply (update_progress_message_and_time upload_world "t1" (float_of_Z 150)
           (Some "Uploaded a.wav (1/4)"%string) upload_task);
    [reflexivity | reflexivity | vm_compute; reflexivity].
Defined.

Lemma terminal_task_swept_once_clock_advances_witness :
  (exists w1 w2,
     complete_task "t1" "done" upload_world = Returned tt w1 /\
     cleanup_old_tasks 0 w1 = Returned tt w2 /\
     get_progress "t1" w2 = Returned None w2) /\
  (exists w1 w2,
     fail_task "t1" "done" upload_world = Returned tt w1 /\
     cleanup_old_tasks 0 w1 = Returned tt w2 /\
     get_progress "t1" w2 = Returned None w2).
Proof.
  apply (terminal_task_swept_once_clock_advances upload_world "t1" "done" upload_task);
    [reflexivity | reflexivity | vm_compute; reflexivity].
Defined.

(** ** Percentages never make [update_progress] raise *)

Lemma binary_round_aux_not_nan sx mx ex lx :
  0 <= mx -> binary_round_aux prec emax sx mx ex lx <> S754_nan.
Proof.
  intros Hm. unfold binary_round_aux.
  pose proof (shr_fexp_digits mx ex lx Hm) as (H1 & _).
  destruct (shr_fexp prec emax mx ex lx) as [r1 e1]. simpl in H1.
  pose proof (round_nearest_even_digits (shr_m r1) (loc_of_shr_record r1) H1) as [H2 _].
  pose proof (shr_fexp_digits _ e1 loc_Exact H2) as (H3 & _).
  destruct (shr_fexp prec emax _ e1 loc_Exact) as [r2 e2]. simpl in H3.
  destruct (shr_m r2) as [|m|m]; try discriminate; [|lia].
  destruct (e2 <=? emax - prec); discriminate.
Qed.

(** The shape of a rounded positive number that neither underflows nor
    overflows: finite, of the sign asked for, and of a magnitude at most
    one binary digit above that of the input. *)
Lemma binary_round_aux_shape sx mx ex lx :
  0 < mx -> -1074 <= ex -> ex <= 971 -> Zdigits2 mx + ex <= 1023 ->
  exists m e,
    binary_round_aux prec emax sx mx ex lx = S754_finite sx m e /\
    ex <= e /\
    Z.pos (digits2_pos m) + e <= Zdigits2 mx + ex + 1 /\
    e <= Z.max ex (Zdigits2 mx + ex - 52).
Proof.
  intros Hm He He' Hd.
  pose proof (binary_round_aux_finite sx mx ex lx ltac:(lia) He' Hd) as Hfin.
  revert Hfin. unfold binary_round_aux.
  destruct (Zdigits2_bounds mx Hm) as [Hdx _].
  pose proof (shr_fexp_pos mx ex lx Hm He) as [P1 P1'].
  pose proof (shr_fexp_digits mx ex lx ltac:(lia)) as (H1 & H1d & H1e).
  destruct (shr_fexp prec emax mx ex lx) as [r1 e1]. simpl in P1, P1', H1, H1d, H1e.
  pose proof (round_nearest_even_pos (shr_m r1) (loc_of_shr_record r1) P1) as P2.
  pose proof (round_nearest_even_digits (shr_m r1) (loc_of_shr_record r1) H1) as [H2 H2d].
  pose proof (shr_fexp_pos _ e1 loc_Exact P2 ltac:(lia)) as [P3 P3'].
  pose proof (shr_fexp_digits _ e1 loc_Exact H2) as (H3 & H3d & H3e).
  destruct (shr_fexp prec emax _ e1 loc_Exact) as [r2 e2]. simpl in P3, P3', H3, H3d, H3e.
  destruct (shr_m r2) as [|m|m] eqn:Hm2; try lia.
  intros Hfin.
  destruct (e2 <=? emax - prec); [|now destruct (Hfin sx)].
  exists m, e2. split; [reflexivity|].
  change (Z.pos (digits2_pos m)) with (Zdigits2 (Z.pos m)).
  destruct (Zdigits2_bounds (Z.pos m) ltac:(lia)) as [Hdm _].
  destruct (Zdigits2_bounds _ P2) as [Hdr _].
  destruct (Zdigits2_bounds _ P1) as [Hd1 _].
  lia.
Qed.

Lemma SFdiv_core_binary_bounds m1 e1 m2 e2 :
  0 < m1 -> 0 < m2 ->
  -1074 <= e1 - e2 ->
  -1074 <= Zdigits2 m1 + e1 - (Zdigits2 m2 + e2) - 53 ->
  exists q l,
    SFdiv_core_binary prec emax m1 e1 m2 e2
      = (q, Z.min (Zdigits2 m1 + e1 - (Zdigits2 m2 + e2) - 53) (e1 - e2), l) /\
    0 < q /\
    Zdigits2 q + Z.min (Zdigits2 m1 + e1 - (Zdigits2 m2 + e2) - 53) (e1 - e2)
      <= Zdigits2 m1 + e1 - (Zdigits2 m2 + e2) + 1.
Proof.
  intros H1 H2 He Hx.
  destruct (SFdiv_core_binary_pos m1 e1 m2 e2 H1 H2 He Hx) as (q & l & Hcore & Hq).
  exists q, l. split; [exact Hcore|]. split; [exact Hq|].
  revert Hcore.
  destruct (Zdigits2_bounds m1 H1) as [Hd1 [Hlo1 Hhi1]].
  destruct (Zdigits2_bounds m2 H2) as [Hd2 [Hlo2 Hhi2]].
  unfold SFdiv_core_binary, fexp, SpecFloat.emin, prec, emax.
  set (d1 := Zdigits2 m1) in *. set (d2 := Zdigits2 m2) in *.
  replace (Z.min (Z.max (d1 + e1 - (d2 + e2) - 53) (3 - 1024 - 53)) (e1 - e2))
    with (Z.min (d1 + e1 - (d2 + e2) - 53) (e1 - e2)) by lia.
  set (e' := Z.min (d1 + e1 - (d2 + e2) - 53) (e1 - e2)).
  set (s := e1 - e2 - e').
  assert (Hs : 0 <= s) by (unfold s, e'; lia).
  set (m' := match s with Z.pos _ => Z.shiftl m1 s | 0 => m1 | Z.neg _ => 0 end).
  assert (Hm' : m' = m1 * 2 ^ s).
  { unfold m'. destruct s as [|p|p]; [simpl; lia | apply Z.shiftl_mul_pow2; lia | lia]. }
  assert (Hpow : 0 < 2 ^ s) by (apply Z.pow_pos_nonneg; lia).
  assert (Hk : 0 <= d1 + s - d2 + 1) by (unfold s, e'; lia).
  assert (Hq1 : m' / m2 < 2 ^ (d1 + s - d2 + 1)).
  { apply Z.div_lt_upper_bound; [lia|].
    apply Z.lt_le_trans with (2 ^ (d1 + s)).
    - rewrite Hm', Z.pow_add_r by lia. nia.
    - assert (Hpw : 2 ^ (d1 + s) = 2 ^ (d2 - 1) * 2 ^ (d1 + s - d2 + 1))
        by (rewrite <- Z.pow_add_r by lia; f_equal; lia).
      rewrite Hpw.
      apply Z.mul_le_mono_nonneg_r; [apply Z.pow_nonneg; lia | exact Hlo2]. }
  unfold Z.div in Hq1.
  destruct (Z.div_eucl m' m2) as [q0 r0]. intros [= <- _].
  assert (Zdigits2 q0 <= d1 + s - d2 + 1) by (apply Zdigits2_le; lia).
  unfold s in *. lia.
Qed.

(** A float from [2 ** -900] to [100] is finite and positive, with a
    magnitude below [2 ^ 7]. *)
Lemma percentage_shape p :
  float_le f_tiny p = true -> float_gt_int p 100 = false ->
  exists m e, p = S754_finite false m e /\ -952 <= e /\ Z.pos (digits2_pos m) + e <= 7.
Proof.
  unfold float_le, SFleb, f_tiny. intros Hlo Hhi.
  destruct p as [s|s| |s m e]; unfold SFcompare in Hlo; try discriminate.
  - destruct s; discriminate.
  - destruct s; [discriminate|].
    exists m, e. split; [reflexivity|].
    assert (He : -952 <= e).
    { destruct (Z.compare_spec (-952) e); try lia; try discriminate. }
    split; [exact He|].
    change (Z.pos (digits2_pos m)) with (Zdigits2 (Z.pos m)).
    destruct (Zdigits2_bounds (Z.pos m) ltac:(lia)) as [Hd [Hlo' _]].
    unfold float_gt_int, float_cmp_int in Hhi.
    destruct (Z.le_gt_cases (Zdigits2 (Z.pos m) + e) 7) as [|Hgt]; [assumption|exfalso].
    set (d := Zdigits2 (Z.pos m)) in *.
    destruct (0 <=? e) eqn:Hpos.
    + apply Z.leb_le in Hpos.
      assert (2 ^ 7 <= Z.pos m * 2 ^ e).
      { apply Z.le_trans with (2 ^ (d - 1) * 2 ^ e).
        - rewrite <- Z.pow_add_r by lia. apply Z.pow_le_mono_r; lia.
        - apply Z.mul_le_mono_nonneg_r; [apply Z.pow_nonneg; lia | exact Hlo']. }
      change (2 ^ 7) with 128 in *.
      destruct (Z.compare_spec (Z.pos m * 2 ^ e) 100); try discriminate; lia.
    + apply Z.leb_gt in Hpos.
      assert (128 * 2 ^ (- e) <= Z.pos m).
      { apply Z.le_trans with (2 ^ (d - 1)); [|exact Hlo'].
        change 128 with (2 ^ 7). rewrite <- Z.pow_add_r by lia.
        apply Z.pow_le_mono_r; lia. }
      assert (0 < 2 ^ (- e)) by (apply Z.pow_pos_nonneg; lia).
      destruct (Z.compare_spec (Z.pos m) (100 * 2 ^ (- e))); try discriminate; lia.
Qed.

(** Such a percentage divided by [100.0] is a positive finite float, of a
    magnitude below [2 ^ 3]. *)
Lemma percentage_ratio m e :
  -952 <= e -> Z.pos (digits2_pos m) + e <= 7 ->
  exists m' e',
    SFdiv prec emax (S754_finite false m e) f100 = S754_finite false m' e' /\
    Z.pos (digits2_pos m') + e' <= 3 /\ e' <= 0.
Proof.
  intros He Hd. unfold SFdiv, f100.
  change (Z.pos (digits2_pos m)) with (Zdigits2 (Z.pos m)) in Hd.
  destruct (Zdigits2_bounds (Z.pos m) ltac:(lia)) as [Hdm _].
  destruct (SFdiv_core_binary_bounds (Z.pos m) e (Z.pos 7036874417766400) (-46))
    as (q & l & Hcore & Hq & Hdq);
    [lia | lia | lia | change (Zdigits2 (Z.pos 7036874417766400)) with 53; lia |].
  rewrite Hcore. change (Zdigits2 (Z.pos 7036874417766400)) with 53 in *.
  destruct (Zdigits2_bounds q Hq) as [Hdq' _].
  destruct (binary_round_aux_shape (xorb false false) q
              (Z.min (Zdigits2 (Z.pos m) + e - (53 + -46) - 53) (e - -46)) l)
    as (m' & e' & Hr & _ & Hmag & Hexp); [lia | lia | lia | lia |].
  exists m', e'. split; [exact Hr|]. lia.
Qed.

Lemma float_of_Z_shape z :
  z <> 0 -> Z.abs z < 2 ^ 900 ->
  exists m e,
    float_of_Z z = S754_finite (z <? 0) m e /\
    Z.pos (digits2_pos m) + e <= 901 /\ e <= 900.
Proof.
  intros Hz Hr.
  assert (Hgen : forall s m, Z.pos m < 2 ^ 900 ->
            exists m' e, binary_round prec emax s m 0 = S754_finite s m' e /\
                         Z.pos (digits2_pos m') + e <= 901 /\ e <= 900).
  { intros s m Hm. unfold binary_round, shl_align.
    destruct (Zdigits2_bounds (Z.pos m) ltac:(lia)) as [Hd [Hlo Hhi]].
    assert (Hd' : Zdigits2 (Z.pos m) <= 900) by (apply Zdigits2_le; lia).
    unfold fexp, SpecFloat.emin, prec, emax.
    change (Z.pos (digits2_pos m)) with (Zdigits2 (Z.pos m)).
    set (d := Zdigits2 (Z.pos m)) in *.
    destruct (Z.max (d + 0 - 53) (3 - 1024 - 53) - 0) as [|n|n] eqn:Hn.
    - destruct (binary_round_aux_shape s (Z.pos m) 0 loc_Exact)
        as (m' & e & H & _ & Hmag & Hexp); [lia | lia | lia | fold d; lia |].
      exists m', e. fold d in Hmag, Hexp. split; [exact H | lia].
    - destruct (binary_round_aux_shape s (Z.pos m) 0 loc_Exact)
        as (m' & e & H & _ & Hmag & Hexp); [lia | lia | lia | fold d; lia |].
      exists m', e. fold d in Hmag, Hexp. split; [exact H | lia].
    - assert (Hmz : Z.pos (Pos.iter xO m n) < 2 ^ (d + Z.pos n)).
      { rewrite pos_iter_xO, Z.pow_add_r by lia.
        apply Z.mul_lt_mono_pos_r; [apply Z.pow_pos_nonneg; lia | exact Hhi]. }
      assert (Zdigits2 (Z.pos (Pos.iter xO m n)) <= d + Z.pos n)
        by (apply Zdigits2_le; lia).
      destruct (binary_round_aux_shape s (Z.pos (Pos.iter xO m n))
                  (Z.max (d + 0 - 53) (3 - 1024 - 53)) loc_Exact)
        as (m' & e & H' & _ & Hmag & Hexp); [lia | lia | lia | lia |].
      exists m', e. split; [exact H' | lia]. }
  unfold float_of_Z, binary_normalize.
  destruct z as [|m|m]; [congruence | apply Hgen; lia | apply Hgen; lia].
Qed.

Lemma Zdigits2_mul (a b : positive) :
  Zdigits2 (Z.pos (a * b)) <= Zdigits2 (Z.pos a) + Zdigits2 (Z.pos b).
Proof.
  destruct (Zdigits2_bounds (Z.pos a) ltac:(lia)) as [Ha [_ Hha]].
  destruct (Zdigits2_bounds (Z.pos b) ltac:(lia)) as [Hb [_ Hhb]].
  apply Zdigits2_le; [|lia]. split; [lia|].
  rewrite Pos2Z.inj_mul, Z.pow_add_r by lia.
  apply Z.mul_lt_mono_nonneg; lia.
Qed.

(** The product of a float below [2 ^ 3] and a float below [2 ^ 901] is a
    float that [int] accepts. *)
Lemma small_product_to_int s mx ex y :
  Z.pos (digits2_pos mx) + ex <= 3 -> ex <= 0 ->
  match y with
  | S754_zero _ => True
  | S754_finite _ my ey => Z.pos (digits2_pos my) + ey <= 901 /\ ey <= 900
  | _ => False
  end ->
  exists n, int_of_float (float_mul (S754_finite s mx ex) y) = Ok n.
Proof.
  intros Hx Hex Hy. unfold float_mul, SFmul.
  destruct y as [sy|sy| |sy my ey]; try contradiction.
  - eexists. reflexivity.
  - destruct Hy as [Hy Hey].
    pose proof (Zdigits2_mul mx my) as Hmul.
    change (Z.pos (digits2_pos mx)) with (Zdigits2 (Z.pos mx)) in Hx.
    change (Z.pos (digits2_pos my)) with (Zdigits2 (Z.pos my)) in Hy.
    pose proof (binary_round_aux_not_nan (xorb s sy) (Z.pos (mx * my)) (ex + ey) loc_Exact
                  ltac:(lia)) as Hnan.
    pose proof (binary_round_aux_finite (xorb s sy) (Z.pos (mx * my)) (ex + ey) loc_Exact
                  ltac:(lia) ltac:(lia) ltac:(lia)) as Hfin.
    destruct (binary_round_aux prec emax (xorb s sy) (Z.pos (mx * my)) (ex + ey) loc_Exact)
      as [s'|s'| |s' m' e'].
    + eexists. reflexivity.
    + now destruct (Hfin s').
    + contradiction.
    + eexists. reflexivity.
Qed.

(** [update_progress] returns on a registered id as soon as the count of
    items is computed and, for a progress above zero, the ratio
    [progress / 100.0] is not zero. *)
Lemma update_progress_returns_when w k p msg t scaled items :
  lock w = false -> tasks w !! k = Some t ->
  float_mul_int (SFdiv prec emax p f100) (total_items t) = Ok scaled ->
  int_of_float scaled = Ok items ->
  (float_gt_int p 0 = true -> is_zero (SFdiv prec emax p f100) = false) ->
  exists w', update_progress k p msg w = Returned tt w' /\ lock w' = false.
Proof.
  destruct w as [m l r c]; simpl; intros -> H Hs Hi Hnz.
  unfold update_progress. unfold_method. run_method H.
  rewrite Hs. simpl. rewrite Hi. simpl.
  destruct (truthy_str msg); run_method H.
  - destruct (float_gt_int p 0); run_method H.
    + unfold float_truediv. rewrite Hnz by reflexivity. run_method H. eauto.
    + eauto.
  - destruct (float_gt_int p 0); run_method H.
    + unfold float_truediv. rewrite Hnz by reflexivity. run_method H. eauto.
    + eauto.
Qed.

(** X5. For every float [progress] from [2 ** -900] to [100] and every task of
    fewer than [2 ** 900] items, [update_progress] returns without raising
    and releases the lock. *)
Theorem update_progress_returns_on_percentages w k p msg t :
  lock w = false -> tasks w !! k = Some t ->
  Z.abs (total_items t) < 2 ^ 900 ->
  float_le f_tiny p = true -> float_gt_int p 100 = false ->
  exists w', update_progress k p msg w = Returned tt w' /\ lock w' = false.
Proof.
  intros Hfree Hk Htot Hlo Hhi.
  destruct (percentage_shape p Hlo Hhi) as (m & e & -> & He & Hd).
  destruct (percentage_ratio m e He Hd) as (m' & e' & Hratio & Hmag & Hexp).
  assert (Hrange : Z.abs (total_items t) < 2 ^ 1023).
  { apply Z.lt_trans with (2 ^ 900); [exact Htot|]. apply Z.pow_lt_mono_r; lia. }
  assert (Hy : match float_of_Z (total_items t) with
               | S754_zero _ => True
               | S754_finite _ my ey => Z.pos (digits2_pos my) + ey <= 901 /\ ey <= 900
               | _ => False
               end).
  { destruct (Z.eq_dec (total_items t) 0) as [->|Hz]; [exact I|].
    destruct (float_of_Z_shape (total_items t) Hz Htot) as (my & ey & -> & H1 & H2).
    auto. }
  destruct (small_product_to_int false m' e' _ Hmag Hexp Hy) as [items Hitems].
  apply (update_progress_returns_when w k _ msg t
           (float_mul (S754_finite false m' e') (float_of_Z (total_items t))) items Hfree Hk).
  - rewrite Hratio. unfold float_mul_int. now rewrite float_of_int_in_range.
  - exact Hitems.
  - intros _. now rewrite Hratio.
Qed.

Lemma update_progress_returns_on_percentages_witness :
  exists w',
    update_progress "t1" (float_of_Z 75) (Some "Uploaded"%string) upload_world
      = Returned tt w' /\ lock w' = false.
Proof.
  apply (update_progress_returns_on_percentages upload_world "t1" (float_of_Z 75)
           (Some "Uploaded"%string) upload_task);
    [reflexivity | reflexivity | vm_compute; reflexivity | reflexivity | reflexivity].
Defined.

(** ** Rounding does not cross an integer bound *)

Lemma record_of_loc_below m e l B :
  located_below m e l B -> record_below (shr_record_of_loc m l) e B.
Proof. unfold located_below, record_below. destruct l as [|[]]; simpl; auto. Qed.

Lemma shr_1_below r e B :
  e + 1 <= 0 -> 0 <= shr_m r ->
  record_below r e B -> record_below (shr_1 r) (e + 1) B.
Proof.
  intros He Hm. unfold record_below.
  replace (- e) with (1 + - (e + 1)) by lia.
  rewrite Z.pow_add_r by lia. change (2 ^ 1) with 2.
  set (K := B * 2 ^ (- (e + 1))).
  replace (B * (2 * 2 ^ (- (e + 1)))) with (2 * K) by (unfold K; lia).
  destruct r as [m b s]. cbn [shr_m shr_r shr_s] in *.
  destruct m as [|[p|p|]|p]; try lia; unfold shr_1; cbn [shr_m shr_r shr_s];
    destruct b, s; cbn [orb]; lia.
Qed.

Lemma iter_shr_1_below (n : positive) :
  forall r e B,
    e + Z.pos n <= 0 -> 0 <= shr_m r ->
    record_below r e B ->
    record_below (SpecFloat.iter_pos shr_1 n r) (e + Z.pos n) B.
Proof.
  assert (Hnn : forall r, 0 <= shr_m r -> 0 <= shr_m (shr_1 r)).
  { intros r Hr. rewrite shr_1_m by exact Hr. apply Z.div_pos; lia. }
  assert (Hit : forall k r, 0 <= shr_m r -> 0 <= shr_m (SpecFloat.iter_pos shr_1 k r)).
  { intros k r Hr. rewrite iter_pos_shr_1_m by exact Hr.
    apply Z.div_pos; [exact Hr | apply Z.pow_pos_nonneg; lia]. }
  induction n as [n IH|n IH|]; intros r e B He Hm Hb; simpl SpecFloat.iter_pos.
  - replace (e + Z.pos n~1) with ((e + 1 + Z.pos n) + Z.pos n) by lia.
    apply IH; [lia | auto |].
    apply IH; [lia | auto |].
    apply shr_1_below; [lia | exact Hm | exact Hb].
  - replace (e + Z.pos n~0) with ((e + Z.pos n) + Z.pos n) by lia.
    apply IH; [lia | auto |].
    apply IH; [lia | exact Hm | exact Hb].
  - apply shr_1_below; [lia | exact Hm | exact Hb].
Qed.

Lemma shr_fexp_below m e l B :
  0 <= m -> e <= 0 -> 0 <= B < 2 ^ 53 ->
  located_below m e l B ->
  let r := fst (shr_fexp prec emax m e l) in
  let e' := snd (shr_fexp prec emax m e l) in
  e' <= 0 /\ 0 <= shr_m r /\ record_below r e' B.
Proof.
  intros Hm He HB Hb.
  assert (Hpow : 0 < 2 ^ (- e)) by (apply Z.pow_pos_nonneg; lia).
  assert (Hmlt : m < 2 ^ (53 - e)).
  { replace (53 - e) with (53 + - e) by lia. rewrite Z.pow_add_r by lia.
    unfold located_below in Hb. destruct l; nia. }
  assert (Hd : Zdigits2 m <= 53 - e) by (apply Zdigits2_le; lia).
  unfold shr_fexp, shr, fexp, SpecFloat.emin, prec, emax.
  set (d := Zdigits2 m) in *.
  destruct (Z.max (d + e - 53) (3 - 1024 - 53) - e) as [|n|n] eqn:Hn; simpl fst; simpl snd.
  - rewrite shr_record_of_loc_m. split; [lia|]. split; [lia|].
    now apply record_of_loc_below.
  - split; [lia|]. split.
    + rewrite iter_pos_shr_1_m by (rewrite shr_record_of_loc_m; lia).
      rewrite shr_record_of_loc_m. apply Z.div_pos; [lia | apply Z.pow_pos_nonneg; lia].
    + apply iter_shr_1_below; [lia | rewrite shr_record_of_loc_m; lia |].
      now apply record_of_loc_below.
  - rewrite shr_record_of_loc_m. split; [lia|]. split; [lia|].
    now apply record_of_loc_below.
Qed.

Lemma round_nearest_even_below r e B :
  record_below r e B ->
  round_nearest_even (shr_m r) (loc_of_shr_record r) <= B * 2 ^ (- e).
Proof.
  unfold record_below, round_nearest_even, loc_of_shr_record.
  destruct r as [m b s]. cbn [shr_m shr_r shr_s].
  destruct b, s; cbn [orb]; try lia.
  destruct (Z.even m); lia.
Qed.

(** Rounding to nearest a number that is at most the integer [B], below
    [2 ^ 53], gives a float that is at most [B]. *)
Lemma binary_round_aux_below sx mx ex lx B :
  0 <= mx -> ex <= 0 -> 0 <= B < 2 ^ 53 ->
  located_below mx ex lx B ->
  match binary_round_aux prec emax sx mx ex lx with
  | S754_zero s => s = sx
  | S754_finite s m e => s = sx /\ e <= 0 /\ Z.pos m <= B * 2 ^ (- e)
  | _ => False
  end.
Proof.
  intros Hm He HB Hb. unfold binary_round_aux.
  pose proof (shr_fexp_below mx ex lx B Hm He HB Hb) as (H1e & H1m & H1b).
  destruct (shr_fexp prec emax mx ex lx) as [r1 e1]. simpl in H1e, H1m, H1b.
  pose proof (round_nearest_even_digits (shr_m r1) (loc_of_shr_record r1) H1m) as [H2 _].
  pose proof (round_nearest_even_below r1 e1 B H1b) as H2b.
  pose proof (shr_fexp_below _ e1 loc_Exact B H2 H1e HB H2b) as (H3e & H3m & H3b).
  destruct (shr_fexp prec emax _ e1 loc_Exact) as [r2 e2]. simpl in H3e, H3m, H3b.
  assert (H3 : shr_m r2 <= B * 2 ^ (- e2)).
  { unfold record_below in H3b. destruct (shr_r r2 || shr_s r2)%bool; lia. }
  destruct (shr_m r2) as [|m|m]; [reflexivity | | lia].
  destruct (Z.leb_spec e2 (emax - prec)) as [|Hgt]; [auto|].
  unfold emax, prec in Hgt. lia.
Qed.

(** [int] of a float that is at most [B] and not negative is an integer
    from [0] to [B]. *)
Lemma int_of_float_below x B :
  match x with
  | S754_zero _ => True
  | S754_finite s m e => s = false /\ e <= 0 /\ Z.pos m <= B * 2 ^ (- e)
  | _ => False
  end ->
  0 <= B ->
  exists n, int_of_float x = Ok n /\ 0 <= n <= B.
Proof.
  intros Hx HB. destruct x as [s|s| |s m e]; try contradiction.
  - exists 0. split; [reflexivity | lia].
  - destruct Hx as (-> & He & Hm). unfold int_of_float.
    assert (Hpow : 0 < 2 ^ (- e)) by (apply Z.pow_pos_nonneg; lia).
    destruct (Z.leb_spec 0 e) as [He0|He0].
    + assert (e = 0) by lia. subst e. exists (Z.pos m * 2 ^ 0). split; [reflexivity|].
      change (2 ^ 0) with 1 in *. change (2 ^ (- 0)) with 1 in *. lia.
    + exists (Z.pos m / 2 ^ (- e)). split; [reflexivity|]. split.
      * apply Z.div_pos; lia.
      * apply Z.div_le_upper_bound; lia.
Qed.

Lemma new_location_exact n k : k = 0 -> new_location n k = loc_Exact.
Proof.
  intros ->. unfold new_location, new_location_even, new_location_odd.
  now destruct (Z.even n).
Qed.

(** What [p <= 100] says of the mantissa and the exponent of a positive
    finite [p]. *)
Lemma percentage_shape_upper m e :
  float_gt_int (S754_finite false m e) 100 = false ->
  Zdigits2 (Z.pos m) + e <= 7 /\
  (if 0 <=? e then Z.pos m * 2 ^ e <= 100 else Z.pos m <= 100 * 2 ^ (- e)).
Proof.
  intros Hhi. unfold float_gt_int, float_cmp_int in Hhi.
  destruct (Zdigits2_bounds (Z.pos m) ltac:(lia)) as [Hd [Hlo' _]].
  set (d := Zdigits2 (Z.pos m)) in *.
  destruct (0 <=? e) eqn:Hpos.
  - apply Z.leb_le in Hpos.
    assert (Hv : Z.pos m * 2 ^ e <= 100)
      by (destruct (Z.compare_spec (Z.pos m * 2 ^ e) 100); try discriminate; lia).
    split; [|exact Hv].
    destruct (Z.le_gt_cases (d + e) 7) as [|Hgt]; [assumption|exfalso].
    assert (2 ^ 7 <= Z.pos m * 2 ^ e).
    { apply Z.le_trans with (2 ^ (d - 1) * 2 ^ e).
      - rewrite <- Z.pow_add_r by lia. apply Z.pow_le_mono_r; lia.
      - apply Z.mul_le_mono_nonneg_r; [apply Z.pow_nonneg; lia | exact Hlo']. }
    change (2 ^ 7) with 128 in *. lia.
  - apply Z.leb_gt in Hpos.
    assert (Hv : Z.pos m <= 100 * 2 ^ (- e))
      by (destruct (Z.compare_spec (Z.pos m) (100 * 2 ^ (- e))); try discriminate; lia).
    split; [|exact Hv].
    destruct (Z.le_gt_cases (d + e) 7) as [|Hgt]; [assumption|exfalso].
    assert (128 * 2 ^ (- e) <= Z.pos m).
    { apply Z.le_trans with (2 ^ (d - 1)); [|exact Hlo'].
      change 128 with (2 ^ 7). rewrite <- Z.pow_add_r by lia.
      apply Z.pow_le_mono_r; lia. }
    assert (0 < 2 ^ (- e)) by (apply Z.pow_pos_nonneg; lia).
    lia.
Qed.

(** [m * 2 ^ e <= 100] scaled to the exponent of the quotient. *)
Lemma value_at_most_100 m e s e0 :
  float_gt_int (S754_finite false m e) 100 = false ->
  s = e - -46 - e0 -> 0 <= s -> e0 <= 0 ->
  Z.pos m * 2 ^ s <= 7036874417766400 * 2 ^ (- e0).
Proof.
  intros Hhi -> Hs He0.
  destruct (percentage_shape_upper m e Hhi) as [_ Hv].
  change 7036874417766400 with (100 * 2 ^ 46).
  replace (100 * 2 ^ 46 * 2 ^ (- e0)) with (100 * 2 ^ (46 - e0))
    by (replace (46 - e0) with (46 + - e0) by lia; rewrite Z.pow_add_r by lia; lia).
  destruct (0 <=? e) eqn:Hpos.
  - apply Z.leb_le in Hpos.
    replace (e - -46 - e0) with (e + (46 - e0)) by lia.
    rewrite Z.pow_add_r by lia.
    assert (0 <= 2 ^ (46 - e0)) by (apply Z.pow_nonneg; lia). nia.
  - apply Z.leb_gt in Hpos.
    assert (Hsplit : 2 ^ (46 - e0) = 2 ^ (- e) * 2 ^ (e - -46 - e0))
      by (rewrite <- Z.pow_add_r by lia; f_equal; lia).
    rewrite Hsplit.
    assert (0 <= 2 ^ (e - -46 - e0)) by (apply Z.pow_nonneg; lia). nia.
Qed.

(** A float from [0] to [100] divided by [100.0] is at most [1]. *)
Lemma ratio_below_one p :
  float_le f0 p = true -> float_gt_int p 100 = false ->
  match SFdiv prec emax p f100 with
  | S754_zero _ => True
  | S754_finite s m e => s = false /\ e <= 0 /\ Z.pos m <= 1 * 2 ^ (- e)
  | _ => False
  end.
Proof.
  unfold float_le, SFleb, f0. intros Hlo Hhi.
  destruct p as [s|s| |s m e]; unfold SFcompare in Hlo; try discriminate.
  - exact I.
  - destruct s; discriminate.
  - destruct s; [discriminate|]. clear Hlo.
    unfold SFdiv, f100.
    destruct (SFdiv_core_binary prec emax (Z.pos m) e (Z.pos 7036874417766400) (-46))
      as [[q e'] l] eqn:Hcore.
    assert (Hq : 0 <= q /\ e' <= 0 /\ located_below q e' l 1).
    { revert Hcore.
      destruct (Zdigits2_bounds (Z.pos m) ltac:(lia)) as [Hd [Hlo1 Hhi1]].
      assert (Hd7 : Zdigits2 (Z.pos m) + e <= 7).
      { destruct (percentage_shape_upper m e Hhi); lia. }
      unfold SFdiv_core_binary, fexp, SpecFloat.emin, prec, emax.
      change (Zdigits2 (Z.pos 7036874417766400)) with 53.
      set (d := Zdigits2 (Z.pos m)) in *.
      set (e0 := Z.min (Z.max (d + e - (53 + -46) - 53) (3 - 1024 - 53)) (e - -46)).
      assert (He0 : e0 <= 0) by (unfold e0; lia).
      set (s := e - -46 - e0).
      assert (Hs : 0 <= s) by (unfold s, e0; lia).
      set (m' := match s with Z.pos _ => Z.shiftl (Z.pos m) s | 0 => Z.pos m | Z.neg _ => 0 end).
      assert (Hm' : m' = Z.pos m * 2 ^ s).
      { unfold m'. destruct s as [|p|p]; [simpl; lia | apply Z.shiftl_mul_pow2; lia | lia]. }
      assert (Hle : m' <= 7036874417766400 * 2 ^ (- e0)).
      { rewrite Hm'. apply (value_at_most_100 m e s e0 Hhi); unfold s; lia. }
      pose proof (Z.div_mod m' 7036874417766400 ltac:(lia)) as Hdm.
      pose proof (Z.mod_pos_bound m' 7036874417766400 ltac:(lia)) as Hmod.
      assert (Hm'0 : 0 <= m') by (rewrite Hm'; apply Z.mul_nonneg_nonneg; [lia | apply Z.pow_nonneg; lia]).
      pose proof (Z.div_pos m' 7036874417766400 Hm'0 ltac:(lia)) as Hq0.
      assert (Hpow : 0 < 2 ^ (- e0)) by (apply Z.pow_pos_nonneg; lia).
      unfold Z.div, Z.modulo in Hdm, Hmod, Hq0.
      destruct (Z.div_eucl m' 7036874417766400) as [q0 r0]. intros [= <- <- <-].
      split; [exact Hq0|]. split; [exact He0|].
      unfold located_below.
      destruct (Z.eq_dec r0 0) as [Hr|Hr].
      - rewrite new_location_exact by exact Hr. nia.
      - assert (Hin : q0 + 1 <= 1 * 2 ^ (- e0)) by nia.
        destruct (new_location 7036874417766400 r0); lia. }
    destruct Hq as (Hq0 & He' & Hb).
    pose proof (binary_round_aux_below (xorb false false) q e' l 1 Hq0 He'
                  ltac:(split; [lia | reflexivity]) Hb) as Hr.
    destruct (binary_round_aux prec emax (xorb false false) q e' l); auto.
Qed.

(** The conversion of an integer from [0] to [2 ^ 53] is at most that
    integer. *)
Lemma float_of_Z_below T :
  0 <= T < 2 ^ 53 ->
  match float_of_Z T with
  | S754_zero _ => True
  | S754_finite s m e => s = false /\ e <= 0 /\ Z.pos m <= T * 2 ^ (- e)
  | _ => False
  end.
Proof.
  intros HT. unfold float_of_Z, binary_normalize.
  destruct T as [|m|m]; [exact I | | lia].
  unfold binary_round, shl_align.
  destruct (Zdigits2_bounds (Z.pos m) ltac:(lia)) as [Hd [Hlo Hhi]].
  assert (Hd' : Zdigits2 (Z.pos m) <= 53) by (apply Zdigits2_le; lia).
  unfold fexp, SpecFloat.emin, prec, emax.
  change (Z.pos (digits2_pos m)) with (Zdigits2 (Z.pos m)).
  set (d := Zdigits2 (Z.pos m)) in *.
  assert (Hshape : forall mz ez,
            0 <= mz -> ez <= 0 -> mz <= Z.pos m * 2 ^ (- ez) ->
            match binary_round_aux 53 1024 false mz ez loc_Exact with
            | S754_zero _ => True
            | S754_finite s m0 e => s = false /\ e <= 0 /\ Z.pos m0 <= Z.pos m * 2 ^ (- e)
            | _ => False
            end).
  { intros mz ez Hmz Hez Hle.
    pose proof (binary_round_aux_below false mz ez loc_Exact (Z.pos m) Hmz Hez HT Hle) as Hr.
    unfold prec, emax in Hr.
    destruct (binary_round_aux 53 1024 false mz ez loc_Exact); auto. }
  destruct (Z.max (d + 0 - 53) (3 - 1024 - 53) - 0) as [|n|n] eqn:Hn.
  - apply Hshape; [lia | lia | change (2 ^ (- 0)) with 1; lia].
  - apply Hshape; [lia | lia | change (2 ^ (- 0)) with 1; lia].
  - apply Hshape; [lia | lia |].
    rewrite pos_iter_xO.
    replace (- Z.max (d + 0 - 53) (3 - 1024 - 53)) with (Z.pos n) by lia. lia.
Qed.

(** The product of a float that is at most [1] with a float that is at
    most [T], both not negative, is at most [T]. *)
Lemma product_below x y T :
  0 <= T < 2 ^ 53 ->
  match x with
  | S754_zero _ => True
  | S754_finite s m e => s = false /\ e <= 0 /\ Z.pos m <= 1 * 2 ^ (- e)
  | _ => False
  end ->
  match y with
  | S754_zero _ => True
  | S754_finite s m e => s = false /\ e <= 0 /\ Z.pos m <= T * 2 ^ (- e)
  | _ => False
  end ->
  match float_mul x y with
  | S754_zero _ => True
  | S754_finite s m e => s = false /\ e <= 0 /\ Z.pos m <= T * 2 ^ (- e)
  | _ => False
  end.
Proof.
  intros HT Hx Hy. unfold float_mul, SFmul.
  destruct x as [sx|sx| |sx mx ex]; try contradiction;
    destruct y as [sy|sy| |sy my ey]; try contradiction; try exact I.
  destruct Hx as (-> & Hex & Hmx). destruct Hy as (-> & Hey & Hmy).
  assert (Hb : located_below (Z.pos (mx * my)) (ex + ey) loc_Exact T).
  { unfold located_below. rewrite Pos2Z.inj_mul.
    replace (- (ex + ey)) with (- ex + - ey) by lia. rewrite Z.pow_add_r by lia.
    assert (0 < 2 ^ (- ex)) by (apply Z.pow_pos_nonneg; lia).
    assert (0 < 2 ^ (- ey)) by (apply Z.pow_pos_nonneg; lia).
    nia. }
  pose proof (binary_round_aux_below (xorb false false) (Z.pos (mx * my)) (ex + ey)
                loc_Exact T ltac:(lia) ltac:(lia) HT Hb) as Hr.
  destruct (binary_round_aux prec emax (xorb false false) (Z.pos (mx * my)) (ex + ey)
              loc_Exact); auto.
Qed.

(** For a progress from [0] to [100] and a total from [0] to [2 ^ 53], the
    count [int(progress / 100.0 * total)] is computed without raising and
    lies from [0] to the total. *)
Lemma percentage_count p T :
  0 <= T < 2 ^ 53 ->
  float_le f0 p = true -> float_gt_int p 100 = false ->
  exists scaled n,
    float_mul_int (SFdiv prec emax p f100) T = Ok scaled /\
    int_of_float scaled = Ok n /\ 0 <= n <= T.
Proof.
  intros HT Hlo Hhi.
  assert (Hrange : Z.abs T < 2 ^ 1023).
  { apply Z.lt_trans with (2 ^ 53); [lia|]. apply Z.pow_lt_mono_r; lia. }
  pose proof (product_below _ _ T HT (ratio_below_one p Hlo Hhi) (float_of_Z_below T HT)) as Hp.
  destruct (int_of_float_below (float_mul (SFdiv prec emax p f100) (float_of_Z T)) T Hp
              ltac:(lia)) as (n & Hn & Hbound).
  exists (float_mul (SFdiv prec emax p f100) (float_of_Z T)), n.
  split; [|split; [exact Hn | exact Hbound]].
  unfold float_mul_int. now rewrite float_of_int_in_range.
Qed.

(** ** Counts within the total *)

Lemma update_progress_count w k p msg t scaled n :
  lock w = false -> tasks w !! k = Some t ->
  float_mul_int (SFdiv prec emax p f100) (total_items t) = Ok scaled ->
  int_of_float scaled = Ok n ->
  exists t',
    tasks (world_after (update_progress k p msg w)) = <[k := t']> (tasks w) /\
    completed_items t' = n /\ total_items t' = total_items t /\
    progress t' = py_min f100 (py_max f0 p).
Proof.
  destruct w as [m l r c]; simpl; intros -> H Hs Hi.
  unfold update_progress. unfold_method. run_method H.
  rewrite Hs. simpl. rewrite Hi. simpl.
  destruct (truthy_str msg); run_method H.
  - destruct (float_gt_int p 0); run_method H.
    + destruct (float_truediv _ (SFdiv prec emax p f100)) as [est|e]; run_method H;
        eexists; repeat split.
    + eexists. repeat split.
  - destruct (float_gt_int p 0); run_method H.
    + destruct (float_truediv _ (SFdiv prec emax p f100)) as [est|e]; run_method H;
        eexists; repeat split.
    + eexists. repeat split.
Qed.

(** X24. For every float [progress] from [0] to [100] and every registered task
    whose [total_items] is from [0] to [2 ** 53], however
    [update_progress] ends, the stored count of completed items lies from
    [0] to [total_items], and the stored progress from [0.0] to [100.0]. *)
Theorem update_progress_count_within_total w k p msg t :
  lock w = false -> tasks w !! k = Some t ->
  0 <= total_items t < 2 ^ 53 ->
  float_le f0 p = true -> float_gt_int p 100 = false ->
  exists t',
    tasks (world_after (update_progress k p msg w)) !! k = Some t' /\
    items_in_range t' /\ progress_in_range t' /\ total_items t' = total_items t.
Proof.
  intros Hfree Hk HT Hlo Hhi.
  destruct (percentage_count p (total_items t) HT Hlo Hhi) as (scaled & n & Hs & Hn & Hb).
  destruct (update_progress_count w k p msg t scaled n Hfree Hk Hs Hn)
    as (t' & Ht & Hc & Htot & Hp).
  exists t'. rewrite Ht, lookup_insert_eq. split; [reflexivity|].
  split; [unfold items_in_range; lia|].
  split; [|exact Htot].
  unfold progress_in_range. rewrite Hp. apply clamp_in_range.
Qed.

Lemma update_progress_count_within_total_witness :
  exists t',
    tasks (world_after (update_progress "t1" (float_of_Z 75) None upload_world)) !! "t1"
      = Some t' /\
    items_in_range t' /\ progress_in_range t' /\ total_items t' = total_items upload_task.
Proof.
  apply (update_progress_count_within_total upload_world "t1" (float_of_Z 75) None
           upload_task);
    [reflexivity | reflexivity | vm_compute; split; [discriminate | reflexivity]
    | reflexivity | reflexivity].
Defined.

(** ** The counts of a registry that is used as the data model asks *)

Lemma all_tasks_insert Q (w w' : World) k t' :
  tasks w' = <[k := t']> (tasks w) -> Q t' -> all_tasks Q w -> all_tasks Q w'.
Proof.
  intros Ht Hq Hw k0 t0. rewrite Ht, lookup_insert.
  case_decide; [intros [= <-]; exact Hq | apply Hw].
Qed.

Lemma all_tasks_same Q (w w' : World) :
  tasks w' = tasks w -> all_tasks Q w -> all_tasks Q w'.
Proof. intros Ht Hw k0 t0. rewrite Ht. apply Hw. Qed.

Lemma proper_call_keeps_bounded_items w c :
  proper_call c -> all_tasks bounded_items w ->
  all_tasks bounded_items (world_after (run_call c w)).
Proof.
  intros Hc Hw.
  destruct (lock w) eqn:Hlock.
  { destruct (held_lock_blocks w Hlock) as [Hb _]. now rewrite Hb. }
  destruct c as [k n p ty|k p msg|k msg|k msg|k err|age]; simpl run_call.
  - unfold bind. rewrite create_task_result by exact Hlock. simpl.
    eapply all_tasks_insert; [reflexivity | | exact Hw].
    simpl in Hc. unfold bounded_items. simpl. lia.
  - destruct (tasks w !! k) as [t|] eqn:Hk.
    + destruct Hc as [Hlo Hhi].
      destruct (Hw k t Hk) as [Hit Htot].
      destruct (percentage_count p (total_items t) ltac:(lia) Hlo Hhi)
        as (scaled & n & Hs & Hn & Hb).
      destruct (update_progress_count w k p msg t scaled n Hlock Hk Hs Hn)
        as (t' & Ht & Hcnt & Htot' & _).
      eapply all_tasks_insert; [exact Ht | | exact Hw].
      unfold bounded_items. lia.
    + now rewrite update_progress_unknown.
  - eapply all_tasks_same; [apply increment_progress_tasks | exact Hw].
  - destruct (tasks w !! k) as [t|] eqn:Hk.
    + rewrite (complete_task_known w k msg t Hlock Hk). simpl.
      eapply all_tasks_insert; [reflexivity | | exact Hw].
      destruct (Hw k t Hk) as [Hit Htot]. unfold bounded_items. simpl. lia.
    + now rewrite complete_task_unknown.
  - destruct (tasks w !! k) as [t|] eqn:Hk.
    + rewrite (fail_task_known w k err t Hlock Hk). simpl.
      eapply all_tasks_insert; [reflexivity | | exact Hw].
      exact (Hw k t Hk).
    + now rewrite fail_task_unknown.
  - now apply cleanup_old_tasks_keeps.
Qed.

Lemma run_call_keeps_progress_in_range c :
  preserves (all_tasks progress_in_range) (run_call c).
Proof.
  destruct c; simpl run_call.
  - apply preserves_bind;
      [apply create_task_keeps_progress_in_range | intros ?; apply preserves_ret].
  - apply update_progress_keeps_progress_in_range.
  - apply increment_progress_keeps_progress_in_range.
  - apply complete_task_keeps_progress_in_range.
  - apply fail_task_keeps_progress_in_range.
  - apply cleanup_old_tasks_keeps.
Qed.

(** X25. In every state reached from the empty registry by calls that create
    tasks with a total of items from [1] to [2 ** 53 - 1] and report
    progress values from [0] to [100], every record has
    [0 <= completed_items <= total_items] and a progress within
    [0.0, 100.0]. *)
Theorem properly_reachable_items_in_range w :
  properly_reachable w ->
  all_tasks items_in_range w /\ all_tasks progress_in_range w.
Proof.
  intros Hw.
  assert (Hb : all_tasks bounded_items w /\ all_tasks progress_in_range w).
  { induction Hw as [clock|w c Hw [IH1 IH2] Hc].
    - split; intros k t; simpl; now rewrite lookup_empty.
    - split; [now apply proper_call_keeps_bounded_items|].
      now apply run_call_keeps_progress_in_range. }
  destruct Hb as [Hb Hp]. split; [|exact Hp].
  intros k t Hk. exact (proj1 (Hb k t Hk)).
Qed.

Lemma properly_reachable_items_in_range_witness :
  all_tasks items_in_range
    (world_after (run_call (UpdateProgress "t1" (float_of_Z 75) None)
       (world_after (run_call (CreateTask "t1" 4 7 "file_upload") (init second_clock))))) /\
  all_tasks progress_in_range
    (world_after (run_call (UpdateProgress "t1" (float_of_Z 75) None)
       (world_after (run_call (CreateTask "t1" 4 7 "file_upload") (init second_clock))))).
Proof.
  apply properly_reachable_items_in_range.
  apply properly_call;
    [apply properly_call; [apply properly_init | vm_compute; split; reflexivity]
    | split; reflexivity].
Defined.
